(** * Verification of [consolidated.py]

    A shallow embedding of [consolidate_nextjs_files] and
    [map_extension_to_language] together with the properties stated for
    them.

    Modelling conventions.
    - A Python [str] is a Rocq [string]: the sequence of the bytes of its
      UTF-8 encoding.  Substring tests and replacements on that encoding
      agree with the ones on code points.  [lower] folds the letters A-Z
      only; every key of the extension table is plain ASCII without the
      letter k, so a non-ASCII character never lower-cases into a key and
      the table lookup is the same as with Python's Unicode [lower].
    - The source tree is an inductive [node]: a file carries the outcome
      of reading it as UTF-8 text ([Some text], or [None] when the read
      raises [UnicodeDecodeError]); a directory carries its listing, in
      the order the operating system yields it.
    - Folder names are single path components, looked up in the listing
      of [src_dir]; a directory is named by its path relative to
      [src_dir], which is what [os.path.relpath(root, src_dir)] returns.
    - The output side is a store from path to text ([gmap string string]);
      text written to a file is what a later read of it returns.
    - The tokenizer is an external collaborator: a function from text to
      a list of tokens, a parameter of the development.
    - [print] appends one entry to a console log.
    - Failures other than a decoding failure (an output file that cannot
      be opened, a tokenizer that raises) end the Python run with an
      exception and are not part of the model. *)

From Stdlib Require Import String Ascii List ZArith Bool Lia DecimalString Permutation.
From stdpp Require Import base gmap strings list fin_maps.
Import ListNotations.
Open Scope string_scope.
Open Scope list_scope.
Set Warnings "-register-all".

(** ** Python string primitives *)

Definition LF : string := String "010" EmptyString.
Definition DQ : string := String "034" EmptyString.
Definition FENCE : string := "```".

(** [str(n)] for a non-negative integer. *)
Definition str_of_nat (n : nat) : string :=
  NilEmpty.string_of_uint (Nat.to_uint n).

(** [s.startswith(pre)] *)
Fixpoint startswith (s pre : string) {struct pre} : bool :=
  match pre with
  | EmptyString => true
  | String c pre' =>
    match s with
    | EmptyString => false
    | String d s' => if Ascii.eqb c d then startswith s' pre' else false
    end
  end.

(** [s.endswith(suf)]: [suf] is one of the tails of [s]. *)
Fixpoint endswith (s suf : string) : bool :=
  String.eqb s suf ||
  match s with
  | EmptyString => false
  | String _ s' => endswith s' suf
  end.

Definition lower_ascii (c : ascii) : ascii :=
  let n := nat_of_ascii c in
  if (65 <=? n)%nat && (n <=? 90)%nat then ascii_of_nat (n + 32) else c.

(** [s.lower()] *)
Fixpoint lower (s : string) : string :=
  match s with
  | EmptyString => EmptyString
  | String c s' => String (lower_ascii c) (lower s')
  end.

(** [s[1:]] *)
Definition drop_first (s : string) : string :=
  match s with
  | EmptyString => EmptyString
  | String _ s' => s'
  end.

(** [s.rfind(c)]: the last index of [c], or -1. *)
Fixpoint rfind_from (c : ascii) (s : string) (i acc : Z) : Z :=
  match s with
  | EmptyString => acc
  | String d s' => rfind_from c s' (i + 1) (if Ascii.eqb d c then i else acc)
  end.

Definition rfind (c : ascii) (s : string) : Z := rfind_from c s 0 (-1).

(** [s[i:j]] and [s[i:]] for indices within range. *)
Definition slice (s : string) (i j : Z) : string :=
  substring (Z.to_nat i) (Z.to_nat (j - i)) s.

Definition slice_from (s : string) (i : Z) : string :=
  substring (Z.to_nat i) (String.length s - Z.to_nat i) s.

Fixpoint all_dots (s : string) : bool :=
  match s with
  | EmptyString => true
  | String c s' => Ascii.eqb c "." && all_dots s'
  end.

(** [os.path.splitext(p)] (posixpath): the extension starts at the last
    dot after the last separator, unless only dots precede it. *)
Definition splitext (p : string) : string * string :=
  let sepIndex := rfind "/" p in
  let dotIndex := rfind "." p in
  if (sepIndex <? dotIndex)%Z then
    if all_dots (slice p (sepIndex + 1) dotIndex)
    then (p, EmptyString)
    else (slice p 0 dotIndex, slice_from p dotIndex)
  else (p, EmptyString).

(** [os.path.join(a, b)] (posixpath, two arguments). *)
Definition path_join (a b : string) : string :=
  if startswith b "/" then b
  else if String.eqb a EmptyString || endswith a "/" then a +:+ b
  else a +:+ "/" +:+ b.

(** [os.path.basename(p)] *)
Definition basename (p : string) : string := slice_from p (rfind "/" p + 1).

(** [s.replace(old, new)]: every non-overlapping occurrence of [old],
    leftmost first.  [skip] counts the characters of a matched
    occurrence that are still to be dropped. *)
Fixpoint replace_go (old new : string) (skip : nat) (s : string) : string :=
  match s with
  | EmptyString => EmptyString
  | String c s' =>
    match skip with
    | S k => replace_go old new k s'
    | O =>
      if startswith s old
      then new +:+ replace_go old new (String.length old - 1) s'
      else String c (replace_go old new 0 s')
    end
  end.

Fixpoint intersperse_after (new s : string) : string :=
  match s with
  | EmptyString => EmptyString
  | String c s' => String c (new +:+ intersperse_after new s')
  end.

Definition str_replace (old new s : string) : string :=
  match old with
  | EmptyString => new +:+ intersperse_after new s
  | String _ _ => replace_go old new 0 s
  end.

(** [s.splitlines()]: the lines of [s] without their terminators.  The
    boundaries are LF, CR, CR LF, VT, FF, FS, GS, RS, and the encodings
    of U+0085, U+2028 and U+2029. *)
Definition is_break1 (c : ascii) : bool :=
  let n := nat_of_ascii c in
  (n =? 10)%nat || (n =? 11)%nat || (n =? 12)%nat || (n =? 13)%nat
  || (n =? 28)%nat || (n =? 29)%nat || (n =? 30)%nat.

Definition cons_char (c : ascii) (ls : list string) : list string :=
  match ls with
  | [] => [String c EmptyString]
  | l :: ls' => String c l :: ls'
  end.

Fixpoint splitlines (s : string) : list string :=
  match s with
  | EmptyString => []
  | String c s' =>
    if is_break1 c then
      match s' with
      | String d s'' =>
        if Ascii.eqb c "013" && Ascii.eqb d "010"
        then EmptyString :: splitlines s''
        else EmptyString :: splitlines s'
      | EmptyString => [EmptyString]
      end
    else
      match s' with
      | String d s'' =>
        if Ascii.eqb c "194" && Ascii.eqb d "133"
        then EmptyString :: splitlines s''
        else
          match s'' with
          | String e s3 =>
            if Ascii.eqb c "226" && Ascii.eqb d "128"
               && (Ascii.eqb e "168" || Ascii.eqb e "169")
            then EmptyString :: splitlines s3
            else cons_char c (splitlines s')
          | EmptyString => cons_char c (splitlines s')
          end
      | EmptyString => [String c EmptyString]
      end
  end.

(** ** The extension-to-language mapper *)

Definition extension_map : list (string * string) :=
  [ (".js", "javascript"); (".jsx", "jsx"); (".ts", "typescript");
    (".tsx", "tsx"); (".css", "css"); (".scss", "scss"); (".json", "json");
    (".md", "markdown"); (".env", "plaintext"); (".gitignore", "plaintext");
    (".html", "html"); (".xml", "xml"); (".yaml", "yaml"); (".yml", "yaml") ].

(** [d.get(k, dflt)] on a dict given by its items. *)
Fixpoint dict_get {V : Type} (d : list (string * V)) (k : string) (dflt : V) : V :=
  match d with
  | [] => dflt
  | (k', v) :: d' => if String.eqb k' k then v else dict_get d' k dflt
  end.

Definition map_extension_to_language (extension : string) : string :=
  dict_get extension_map (lower extension) "plaintext".

(** ** The source tree *)

Inductive node : Type :=
| File (data : option string)
| Dir (entries : list (string * node)).

(** The entry called [name] in a directory listing. *)
Fixpoint lookup_entry (name : string) (es : list (string * node)) : option node :=
  match es with
  | [] => None
  | (n, x) :: es' => if String.eqb n name then Some x else lookup_entry name es'
  end.

(** The two lists [os.walk] builds from one listing.  A file name comes
    with what reading [os.path.join(root, file_name)] yields. *)
Fixpoint dirnames (es : list (string * node)) : list string :=
  match es with
  | [] => []
  | (name, Dir _) :: es' => name :: dirnames es'
  | (_, File _) :: es' => dirnames es'
  end.

Fixpoint nondirs (es : list (string * node)) : list (string * option string) :=
  match es with
  | [] => []
  | (name, File d) :: es' => (name, d) :: nondirs es'
  | (_, Dir _) :: es' => nondirs es'
  end.

Definition walk_entry : Type :=
  (string * list string * list (string * option string))%type.

(** [os.walk(top)], top-down: the directory itself, then each of its
    sub-directories in listing order. *)
Fixpoint walk (top : string) (n : node) {struct n} : list walk_entry :=
  match n with
  | File _ => []
  | Dir es =>
    (top, dirnames es, nondirs es) ::
    (fix walk_dirs (l : list (string * node)) : list walk_entry :=
       match l with
       | [] => []
       | (name, sub) :: l' =>
         match sub with
         | Dir _ => walk (path_join top name) sub ++ walk_dirs l'
         | File _ => walk_dirs l'
         end
       end) es
  end.

(** ** The consolidator *)

Definition default_main_folders : list string :=
  ["app"; "components"; "context"; "lib"; "scripts"; "types"].

Definition extensions : list string :=
  [".js"; ".jsx"; ".ts"; ".tsx"; ".css"; ".scss"; ".json"; ".md"].

(** [any(f.endswith(ext) for ext in extensions)] *)
Definition matches_extension (f : string) : bool :=
  existsb (endswith f) extensions.

(** [buf] after [out_file.write(s)]. *)
Definition write (buf s : string) : string := buf +:+ s.

Definition header_line (main_folder : string) : string :=
  "// Consolidated files from the " +:+ DQ +:+ main_folder +:+ DQ +:+ " folder".

Definition counted_header_line (n : nat) (main_folder : string) : string :=
  "// Consolidated " +:+ str_of_nat n +:+ " files from the " +:+ DQ
  +:+ main_folder +:+ DQ +:+ " folder".

Definition subheader_line (main_folder : string) : string :=
  "// This file contains all code files within the " +:+ DQ +:+ main_folder
  +:+ DQ +:+ " folder and its subfolders.".

Definition placeholder_line : string :=
  "// [Binary file or non-UTF-8 encoding, content skipped]".

(** [d[k] = v] on an insertion-ordered dict. *)
Fixpoint dict_set {V : Type} (d : list (string * V)) (k : string) (v : V)
  : list (string * V) :=
  match d with
  | [] => [(k, v)]
  | (k', v') :: d' =>
    if String.eqb k' k then (k', v) :: d' else (k', v') :: dict_set d' k v
  end.

(** Reading a file of the output store back. *)
Definition read_text (fs : gmap string string) (p : string) : string :=
  default EmptyString (fs !! p).

(** The local variables of one folder's walk. *)
Record walk_state : Type := {
  ws_out : string;
  folder_lines : nat;
  folder_tokens : nat;
  included_files_count : nat;
  ws_console : list string
}.

(** The variables of the run. *)
Record run_state : Type := {
  files : gmap string string;
  console : list string;
  total_lines_of_code : nat;
  total_tokens : nat;
  folder_summary : list (string * (nat * nat));
  consolidated_files : list string
}.

(** ** Sample inputs *)

(** A tokenizer for examples: one token per byte. *)
Definition byte_tokenizer (s : string) : list nat :=
  map nat_of_ascii (list_ascii_of_string s).

Definition sample_lib_entries : list (string * node) :=
  [ ("a.ts", File (Some ("let x = 1;" +:+ LF +:+ "let y = 2;" +:+ LF)));
    ("logo.png", File None);
    ("util", Dir [ ("readme.md", File (Some "# util"));
                   ("blob.json", File None) ]) ].

Definition sample_empty_entries : list (string * node) :=
  [ ("logo.png", File None); ("sub", Dir [ ("LICENSE", File (Some "MIT")) ]) ].

Definition sample_src : list (string * node) :=
  [ ("lib", Dir sample_lib_entries);
    ("empty", Dir sample_empty_entries);
    ("notes.md", File (Some "top")) ].

(** A folder whose name holds the suffix of the artifact names. *)
Definition suffix_named_src : list (string * node) :=
  [ ("api_consolidated.txt", Dir [ ("a.js", File (Some "x")) ]) ].

(** A file whose text is the first header line of its folder's artifact. *)
Definition quoting_src : list (string * node) :=
  [ ("app", Dir [ ("notes.md", File (Some (header_line "app"))) ]) ].

Section Consolidator.

Variable tokenizer_encode : string -> list nat.

(** Lines 68-93: one matched file. *)
Definition write_file (relative_path : string) (ws : walk_state)
  (f : string * option string) : walk_state :=
  let file_name := fst f in
  let ext := snd (splitext file_name) in
  let o1 := write (ws_out ws)
              ("// Directory: " +:+ relative_path +:+ ", File: " +:+ file_name +:+ LF) in
  let o2 := write o1 ("// File Type: " +:+ drop_first ext +:+ LF) in
  match snd f with
  | Some content =>
    let lines := splitlines content in
    let tokens := length (tokenizer_encode content) in
    let o3 := write o2 (FENCE +:+ map_extension_to_language ext +:+ LF) in
    let o4 := write o3 content in
    let o5 := write o4 (LF +:+ FENCE +:+ LF +:+ LF) in
    {| ws_out := o5;
       folder_lines := folder_lines ws + length lines;
       folder_tokens := folder_tokens ws + tokens;
       included_files_count := included_files_count ws;
       ws_console := ws_console ws ++
         ["Processed '" +:+ relative_path +:+ "/" +:+ file_name +:+ "' ("
          +:+ str_of_nat (length lines) +:+ " lines, " +:+ str_of_nat tokens
          +:+ " tokens)"] |}
  | None =>
    {| ws_out := write o2 (placeholder_line +:+ LF +:+ LF);
       folder_lines := folder_lines ws;
       folder_tokens := folder_tokens ws;
       included_files_count := included_files_count ws;
       ws_console := ws_console ws ++
         ["Skipped '" +:+ relative_path +:+ "/" +:+ file_name
          +:+ "' (binary or encoding issues)"] |}
  end.

(** Lines 54-93: one directory yielded by the walk. *)
Definition visit_directory (ws : walk_state) (entry : walk_entry) : walk_state :=
  let '(root, _, files) := entry in
  let relative_path := root in
  let included_files := List.filter (fun f => matches_extension (fst f)) files in
  let ws1 :=
    {| ws_out := ws_out ws;
       folder_lines := folder_lines ws;
       folder_tokens := folder_tokens ws;
       included_files_count := included_files_count ws + length included_files;
       ws_console := ws_console ws |} in
  match included_files with
  | [] => ws1
  | _ :: _ => fold_left (write_file relative_path) included_files ws1
  end.

(** Lines 41-93: the artifact as first written, with the folder's counters. *)
Definition write_artifact (main_folder : string) (dir : node) : walk_state :=
  let o1 := write EmptyString (header_line main_folder +:+ LF) in
  let o2 := write o1 (subheader_line main_folder +:+ LF +:+ LF) in
  fold_left visit_directory (walk main_folder dir)
    {| ws_out := o2; folder_lines := 0; folder_tokens := 0;
       included_files_count := 0; ws_console := [] |}.

Definition output_file_of (output_dir main_folder : string) : string :=
  path_join output_dir (main_folder +:+ "_consolidated.txt").

(** Lines 33-115: one iteration of the loop over [main_folders]. *)
Definition process_folder (src_dir output_dir : string)
  (src : list (string * node)) (st : run_state) (main_folder : string)
  : run_state :=
  match lookup_entry main_folder src with
  | Some (Dir es) =>
    let output_file := output_file_of output_dir main_folder in
    let ws := write_artifact main_folder (Dir es) in
    let fs1 := <[output_file := ws_out ws]> (files st) in
    let content := read_text fs1 output_file in
    let content := str_replace (header_line main_folder)
                     (counted_header_line (included_files_count ws) main_folder)
                     content in
    let fs2 := <[output_file := content]> fs1 in
    {| files := fs2;
       console := (console st ++ ws_console ws) ++
         [LF +:+ "Consolidated " +:+ str_of_nat (included_files_count ws)
          +:+ " files from '" +:+ main_folder +:+ "' folder: " +:+ output_file];
       total_lines_of_code := total_lines_of_code st + folder_lines ws;
       total_tokens := total_tokens st + folder_tokens ws;
       folder_summary :=
         dict_set (folder_summary st) main_folder (folder_lines ws, folder_tokens ws);
       consolidated_files := consolidated_files st ++ [output_file] |}
  | _ =>
    {| files := files st;
       console := console st ++
         ["Warning: Folder '" +:+ main_folder +:+ "' does not exist in " +:+ src_dir];
       total_lines_of_code := total_lines_of_code st;
       total_tokens := total_tokens st;
       folder_summary := folder_summary st;
       consolidated_files := consolidated_files st |}
  end.

Definition folder_name_of (cf : string) : string :=
  str_replace "_consolidated.txt" EmptyString (basename cf).

Definition manifest_line (cf : string) : string := "// - " +:+ basename cf +:+ LF.

Definition start_marker (folder_name : string) : string :=
  "// ===== Start of " +:+ folder_name +:+ " folder =====" +:+ LF +:+ LF.

Definition end_marker (folder_name : string) : string :=
  LF +:+ "// ===== End of " +:+ folder_name +:+ " folder =====" +:+ LF +:+ LF.

(** Lines 133-138: one per-folder artifact appended to the master. *)
Definition append_artifact (fs : gmap string string) (m cf : string) : string :=
  let folder_name := folder_name_of cf in
  let m1 := write m (start_marker folder_name) in
  let m2 := write m1 (read_text fs cf) in
  write m2 (end_marker folder_name).

(** Lines 118-130: the manifest and the statistics block. *)
Definition master_head (st : run_state) : string :=
  let cfs := consolidated_files st in
  let m1 := write EmptyString
    ("// This master file consolidates " +:+ str_of_nat (length cfs)
     +:+ " main folders from the src directory." +:+ LF) in
  let m2 := write m1 ("// The following folder consolidations are included:" +:+ LF) in
  let m3 := fold_left (fun m cf => write m (manifest_line cf)) cfs m2 in
  let m4 := write m3 LF in
  let m5 := write m4 ("// Project Statistics:" +:+ LF) in
  let m6 := write m5
    ("// - Total lines of code: " +:+ str_of_nat (total_lines_of_code st) +:+ LF) in
  write m6 ("// - Total tokens: " +:+ str_of_nat (total_tokens st) +:+ LF +:+ LF).

(** Lines 118-140.  Opening the master for writing empties it; its text
    reaches the store when it is closed. *)
Definition compose_master (output_dir : string) (st : run_state) : run_state :=
  let master_file_path := path_join output_dir "master_consolidated.txt" in
  let fs0 := <[master_file_path := EmptyString]> (files st) in
  let m := fold_left (append_artifact fs0) (consolidated_files st) (master_head st) in
  {| files := <[master_file_path := m]> fs0;
     console := console st ++
       [LF +:+ "Master consolidated file created: " +:+ master_file_path];
     total_lines_of_code := total_lines_of_code st;
     total_tokens := total_tokens st;
     folder_summary := folder_summary st;
     consolidated_files := consolidated_files st |}.

(** Lines 142-147. *)
Definition report_summary (st : run_state) : run_state :=
  {| files := files st;
     console :=
       ((console st ++ [LF +:+ "Lines of Code and Token Summary:"])
        ++ map (fun e : string * (nat * nat) =>
                  "  Folder '" +:+ fst e +:+ "': " +:+ str_of_nat (fst (snd e))
                  +:+ " lines, " +:+ str_of_nat (snd (snd e)) +:+ " tokens")
             (folder_summary st))
       ++ ["Total lines of code: " +:+ str_of_nat (total_lines_of_code st);
           "Total tokens: " +:+ str_of_nat (total_tokens st)];
     total_lines_of_code := total_lines_of_code st;
     total_tokens := total_tokens st;
     folder_summary := folder_summary st;
     consolidated_files := consolidated_files st |}.

(** Lines 19-27: the state before the loop.  [outdir] is the output
    store, or [None] when [output_dir] does not exist yet. *)
Definition initial_state (output_dir : string)
  (outdir : option (gmap string string)) : run_state :=
  {| files := default ∅ outdir;
     console :=
       match outdir with
       | Some _ => []
       | None => ["Created folder: " +:+ output_dir]
       end;
     total_lines_of_code := 0;
     total_tokens := 0;
     folder_summary := [];
     consolidated_files := [] |}.

(** Lines 33-115: the loop over the configured folders. *)
Definition process_folders (src_dir output_dir : string)
  (src : list (string * node)) (main_folders : list string) (st : run_state)
  : run_state :=
  fold_left (process_folder src_dir output_dir src) main_folders st.

(** The whole of [consolidate_nextjs_files]; the final values of its
    variables are returned for inspection. *)
Definition consolidate_nextjs_files (src_dir output_dir : string)
  (main_folders : option (list string))
  (src : list (string * node)) (outdir : option (gmap string string))
  : run_state :=
  let main_folders := default default_main_folders main_folders in
  let st := initial_state output_dir outdir in
  let st := process_folders src_dir output_dir src main_folders st in
  let st := compose_master output_dir st in
  report_summary st.

(** ** Declarative views of the walk *)

(** A matched file: the directory it is in (relative to the source
    root), its name, and the outcome of reading it. *)
Definition file_record : Type := (string * string * option string)%type.

Definition entry_records (e : walk_entry) : list file_record :=
  let '(root, _, files) := e in
  map (fun f => (root, fst f, snd f))
      (List.filter (fun f => matches_extension (fst f)) files).

(** The files the walk of a folder includes, in the order it meets them. *)
Definition included_records (top : string) (n : node) : list file_record :=
  flat_map entry_records (walk top n).

Definition lines_of (d : option string) : nat :=
  match d with
  | Some content => length (splitlines content)
  | None => 0
  end.

Definition tokens_of (d : option string) : nat :=
  match d with
  | Some content => length (tokenizer_encode content)
  | None => 0
  end.

(** The per-file block of the artifact. *)
Definition block_of (r : file_record) : string :=
  let '(relative_path, file_name, d) := r in
  let ext := snd (splitext file_name) in
  ("// Directory: " +:+ relative_path +:+ ", File: " +:+ file_name +:+ LF)
  +:+ ("// File Type: " +:+ drop_first ext +:+ LF)
  +:+ match d with
      | Some content =>
        (FENCE +:+ map_extension_to_language ext +:+ LF)
        +:+ content +:+ (LF +:+ FENCE +:+ LF +:+ LF)
      | None => placeholder_line +:+ LF +:+ LF
      end.

Definition concat_all (l : list string) : string :=
  fold_right String.append EmptyString l.

Definition artifact_header (main_folder : string) : string :=
  (header_line main_folder +:+ LF) +:+ (subheader_line main_folder +:+ LF +:+ LF).

(** The sub-directories of a listing, walked one after the other. *)
Definition walk_dirs (top : string) (es : list (string * node)) : list walk_entry :=
  flat_map (fun e => walk (path_join top (fst e)) (snd e)) es.

(** ** The tree, without the walk *)

(** [file_at n p name d]: below directory [n], following the
    sub-directory names [p], there is a file [name] whose read yields [d]. *)
Inductive file_at : node -> list string -> string -> option string -> Prop :=
| file_here es name d :
    In (name, File d) es -> file_at (Dir es) [] name d
| file_below es dname sub p name d :
    In (dname, sub) es -> file_at sub p name d ->
    file_at (Dir es) (dname :: p) name d.

(** The path of the directory reached from [top] through [p]. *)
Definition rel_path (top : string) (p : list string) : string :=
  fold_left path_join p top.

(** The number of files of a tree whose name matches an extension. *)
Fixpoint count_matching (n : node) : nat :=
  match n with
  | File _ => 0
  | Dir es =>
    (fix count_entries (l : list (string * node)) : nat :=
       match l with
       | [] => 0
       | (name, sub) :: l' =>
         match sub with
         | File _ => (if matches_extension name then 1 else 0) + count_entries l'
         | Dir _ => count_matching sub + count_entries l'
         end
       end) es
  end.

(** The texts of the matched files of a tree that decode. *)
Fixpoint decoded_matching (n : node) : list string :=
  match n with
  | File _ => []
  | Dir es =>
    (fix decoded_entries (l : list (string * node)) : list string :=
       match l with
       | [] => []
       | (name, sub) :: l' =>
         match sub with
         | File (Some content) =>
           if matches_extension name then content :: decoded_entries l'
           else decoded_entries l'
         | File None => decoded_entries l'
         | Dir _ => decoded_matching sub ++ decoded_entries l'
         end
       end) es
  end.

(** Induction on trees, with the hypothesis for every entry of a listing. *)
Fixpoint node_ind' (P : node -> Prop)
  (HF : forall d, P (File d))
  (HD : forall es, Forall (fun e => P (snd e)) es -> P (Dir es))
  (n : node) {struct n} : P n :=
  match n with
  | File d => HF d
  | Dir es =>
    HD es
      ((fix go (l : list (string * node)) : Forall (fun e => P (snd e)) l :=
          match l with
          | [] => @List.Forall_nil _ _
          | (name, sub) :: l' =>
            @List.Forall_cons _ (fun e => P (snd e)) (name, sub) l'
              (node_ind' P HF HD sub) (go l')
          end) es)
  end.

(** The matching files of one listing, and their records. *)
Definition matched (fs : list (string * option string)) : list (string * option string) :=
  List.filter (fun f => matches_extension (fst f)) fs.

Definition records_in (root : string) (fs : list (string * option string)) : list file_record :=
  map (fun f => (root, fst f, snd f)) (matched fs).

(** ** Skipped folders and totals *)

(** Two states that agree on everything but the console log. *)
Definition same_data (st1 st2 : run_state) : Prop :=
  files st1 = files st2 /\
  total_lines_of_code st1 = total_lines_of_code st2 /\
  total_tokens st1 = total_tokens st2 /\
  folder_summary st1 = folder_summary st2 /\
  consolidated_files st1 = consolidated_files st2.

Definition warning_line (src_dir main_folder : string) : string :=
  "Warning: Folder '" +:+ main_folder +:+ "' does not exist in " +:+ src_dir.

(** The folder is missing under the source root, or is not a directory. *)
Definition not_a_directory (src : list (string * node)) (main_folder : string) : Prop :=
  lookup_entry main_folder src = None \/
  exists d, lookup_entry main_folder src = Some (File d).

(** The configured folders that are processed, with their trees, in
    configured order (a name configured twice is processed twice). *)
Definition processed_dirs (src : list (string * node)) (l : list string)
  : list (string * node) :=
  flat_map (fun f => match lookup_entry f src with
                     | Some (Dir es) => [(f, Dir es)]
                     | _ => []
                     end) l.

Definition line_count (content : string) : nat := length (splitlines content).
Definition token_count (content : string) : nat := length (tokenizer_encode content).

(** The lines (tokens) of the decodable matching files of a tree. *)
Definition tree_lines (n : node) : nat := list_sum (map line_count (decoded_matching n)).
Definition tree_tokens (n : node) : nat := list_sum (map token_count (decoded_matching n)).


(** ** The output store seen as whole-file writes *)

(** The store after a list of whole-file writes, oldest first. *)
Definition apply_writes (w : list (string * string)) (fs : gmap string string)
  : gmap string string :=
  fold_left (fun acc kv => <[fst kv := snd kv]> acc) w fs.

(** The text the latest write to [k] left, if any. *)
Fixpoint last_write (w : list (string * string)) (k : string) : option string :=
  match w with
  | [] => None
  | (k0, v0) :: w' =>
    match last_write w' k with
    | Some v => Some v
    | None => if String.eqb k0 k then Some v0 else None
    end
  end.

(** A folder's artifact after the rewrite pass. *)
Definition final_artifact (main_folder : string) (dir : node) : string :=
  let ws := write_artifact main_folder dir in
  str_replace (header_line main_folder)
    (counted_header_line (included_files_count ws) main_folder) (ws_out ws).

(** The artifacts the loop leaves, in configured order. *)
Definition loop_writes (output_dir : string) (src : list (string * node))
  (l : list string) : list (string * string) :=
  flat_map (fun f => match lookup_entry f src with
                     | Some (Dir es) =>
                       [(output_file_of output_dir f, final_artifact f (Dir es))]
                     | _ => []
                     end) l.

Definition master_file_path_of (output_dir : string) : string :=
  path_join output_dir "master_consolidated.txt".

(** A per-folder artifact between its two markers. *)
Definition wrapped (fs : gmap string string) (cf : string) : string :=
  start_marker (folder_name_of cf) +:+ read_text fs cf
  +:+ end_marker (folder_name_of cf).

Definition manifest_block (cfs : list string) : string :=
  ("// This master file consolidates " +:+ str_of_nat (length cfs)
   +:+ " main folders from the src directory." +:+ LF)
  +:+ ("// The following folder consolidations are included:" +:+ LF)
  +:+ concat_all (map manifest_line cfs) +:+ LF.

Definition statistics_block (lines tokens : nat) : string :=
  ("// Project Statistics:" +:+ LF)
  +:+ ("// - Total lines of code: " +:+ str_of_nat lines +:+ LF)
  +:+ ("// - Total tokens: " +:+ str_of_nat tokens +:+ LF +:+ LF).

(** What the master composer reads for a listed artifact: the latest
    text the loop wrote to it, or nothing when the path is the master's
    own, which has just been opened for writing. *)
Definition listed_text (output_dir : string) (w : list (string * string))
  (cf : string) : string :=
  if String.eqb (master_file_path_of output_dir) cf then EmptyString
  else default EmptyString (last_write w cf).

Definition master_of (output_dir : string) (w : list (string * string))
  (lines tokens : nat) : string :=
  (manifest_block (map fst w) +:+ statistics_block lines tokens)
  +:+ concat_all
        (map (fun cf => start_marker (folder_name_of cf)
                        +:+ listed_text output_dir w cf
                        +:+ end_marker (folder_name_of cf))
             (map fst w)).

(** The output store a run leaves, from the store it found. *)
Definition run_store (output_dir : string) (src : list (string * node))
  (l : list string) (fs : gmap string string) : gmap string string :=
  let w := loop_writes output_dir src l in
  <[master_file_path_of output_dir :=
      master_of output_dir w
        (list_sum (map (fun fd => tree_lines (snd fd)) (processed_dirs src l)))
        (list_sum (map (fun fd => tree_tokens (snd fd)) (processed_dirs src l)))]>
    (apply_writes w fs).

(** [old in s] *)
Fixpoint occurs (old s : string) : bool :=
  startswith s old ||
  match s with
  | EmptyString => false
  | String _ s' => occurs old s'
  end.

(** ** Names and paths *)

(** [c in s] *)
Fixpoint has_char (c : ascii) (s : string) : bool :=
  match s with
  | EmptyString => false
  | String d s' => Ascii.eqb d c || has_char c s'
  end.

(** [s[-1:]] as an optional character. *)
Fixpoint last_char (s : string) : option ascii :=
  match s with
  | EmptyString => None
  | String c EmptyString => Some c
  | String _ s' => last_char s'
  end.

(** The suffix line 46 gives every per-folder artifact. *)
Definition artifact_suffix : string := "_consolidated.txt".

(** ** Console lines *)

(** Lines 90 and 93: the progress line of one included file. *)
Definition progress_line (r : file_record) : string :=
  let '(relative_path, file_name, d) := r in
  match d with
  | Some content =>
    "Processed '" +:+ relative_path +:+ "/" +:+ file_name +:+ "' ("
    +:+ str_of_nat (length (splitlines content)) +:+ " lines, "
    +:+ str_of_nat (length (tokenizer_encode content)) +:+ " tokens)"
  | None =>
    "Skipped '" +:+ relative_path +:+ "/" +:+ file_name
    +:+ "' (binary or encoding issues)"
  end.



(** * Properties *)

(** ** Strings *)

Lemma append_nil_l (s : string) : EmptyString +:+ s = s.
Proof. reflexivity. Qed.

Lemma append_cons (c : ascii) (s t : string) : String c s +:+ t = String c (s +:+ t).
Proof. reflexivity. Qed.

Lemma append_nil_r (s : string) : s +:+ EmptyString = s.
Proof.
  induction s as [|c s IH]; [reflexivity|].
  now rewrite append_cons, IH.
Qed.

Lemma append_assoc (a b c : string) : (a +:+ b) +:+ c = a +:+ (b +:+ c).
Proof.
  induction a as [|x a IH]; [reflexivity|].
  now rewrite !append_cons, IH.
Qed.

Lemma concat_all_app (l1 l2 : list string) :
  concat_all (l1 ++ l2) = concat_all l1 +:+ concat_all l2.
Proof.
  induction l1 as [|x l1 IH]; [reflexivity|].
  unfold concat_all in *. cbn [app fold_right]. now rewrite IH, append_assoc.
Qed.

Lemma startswith_app (p r : string) : startswith (p +:+ r) p = true.
Proof.
  induction p as [|c p IH]; [reflexivity|].
  rewrite append_cons. cbn [startswith]. now rewrite Ascii.eqb_refl.
Qed.


Lemma endswith_spec (s suf : string) :
  endswith s suf = true <-> exists pre, s = pre +:+ suf.
Proof.
  split.
  - induction s as [|c s IH]; cbn [endswith]; intros H.
    + apply orb_true_iff in H as [H|H]; [|discriminate].
      apply String.eqb_eq in H. now exists EmptyString.
    + apply orb_true_iff in H as [H|H].
      * apply String.eqb_eq in H. now exists EmptyString.
      * destruct (IH H) as [pre ->]. now exists (String c pre).
  - intros [pre ->]. induction pre as [|c pre IH].
    + rewrite append_nil_l.
      destruct suf; cbn [endswith]; rewrite String.eqb_refl; reflexivity.
    + rewrite append_cons. cbn [endswith]. rewrite IH. apply orb_true_r.
Qed.

Lemma replace_go_skip (old new t rest : string) :
  replace_go old new (String.length t) (t +:+ rest) = replace_go old new 0 rest.
Proof.
  induction t as [|c t IH]; [reflexivity|].
  rewrite append_cons. cbn [String.length replace_go]. exact IH.
Qed.

(** A text that starts with the pattern: the occurrence is replaced and
    the scan goes on behind it. *)
Lemma str_replace_head (old new rest : string) :
  old <> EmptyString ->
  str_replace old new (old +:+ rest) = new +:+ str_replace old new rest.
Proof.
  destruct old as [|c old]; [congruence|intros _].
  unfold str_replace.
  pose proof (startswith_app (String c old) rest) as Hs.
  rewrite append_cons in *. cbn [replace_go]. rewrite Hs.
  cbn [String.length Nat.sub]. rewrite ?Nat.sub_0_r, replace_go_skip. reflexivity.
Qed.

(** ** The walk *)

Lemma walk_Dir (top : string) (es : list (string * node)) :
  walk top (Dir es) = (top, dirnames es, nondirs es) :: walk_dirs top es.
Proof.
  cbn [walk]. f_equal. unfold walk_dirs.
  induction es as [|[name sub] es IH]; [reflexivity|].
  cbn [flat_map fst snd]. rewrite <- IH.
  destruct sub; reflexivity.
Qed.

Lemma walk_dirs_cons (top name : string) (sub : node) (es : list (string * node)) :
  walk_dirs top ((name, sub) :: es)
  = walk (path_join top name) sub ++ walk_dirs top es.
Proof. reflexivity. Qed.

Lemma included_records_Dir (top : string) (es : list (string * node)) :
  included_records top (Dir es)
  = records_in top (nondirs es)
    ++ flat_map (fun e => included_records (path_join top (fst e)) (snd e)) es.
Proof.
  unfold included_records. rewrite walk_Dir. cbn [flat_map entry_records].
  f_equal. unfold walk_dirs.
  induction es as [|e es IH]; [reflexivity|].
  cbn [flat_map]. now rewrite flat_map_app, IH.
Qed.

Lemma included_records_File (top : string) (d : option string) :
  included_records top (File d) = [].
Proof. reflexivity. Qed.

(** ** What the loops compute *)

Lemma list_sum_cons (x : nat) (l : list nat) : list_sum (x :: l) = x + list_sum l.
Proof. reflexivity. Qed.

Lemma write_file_out (rel : string) (ws : walk_state) (f : string * option string) :
  ws_out (write_file rel ws f) = ws_out ws +:+ block_of (rel, fst f, snd f).
Proof.
  unfold write_file, block_of, write. destruct f as [name [content|]]; cbn [fst snd ws_out];
    now rewrite !append_assoc.
Qed.

Lemma write_file_counters (rel : string) (ws : walk_state) (f : string * option string) :
  folder_lines (write_file rel ws f) = folder_lines ws + lines_of (snd f) /\
  folder_tokens (write_file rel ws f) = folder_tokens ws + tokens_of (snd f) /\
  included_files_count (write_file rel ws f) = included_files_count ws.
Proof.
  unfold write_file. destruct f as [name [content|]]; cbn; repeat split; lia.
Qed.

Lemma fold_write_file (rel : string) (fs : list (string * option string)) (ws : walk_state) :
  let ws' := fold_left (write_file rel) fs ws in
  let rs := map (fun f => (rel, fst f, snd f)) fs in
  ws_out ws' = ws_out ws +:+ concat_all (map block_of rs) /\
  folder_lines ws' = folder_lines ws + list_sum (map (fun r => lines_of (snd r)) rs) /\
  folder_tokens ws' = folder_tokens ws + list_sum (map (fun r => tokens_of (snd r)) rs) /\
  included_files_count ws' = included_files_count ws.
Proof.
  revert ws. induction fs as [|f fs IH]; intros ws; cbn zeta.
  - cbn. rewrite append_nil_r. repeat split; lia.
  - cbn [fold_left map]. specialize (IH (write_file rel ws f)).
    cbn zeta in IH. destruct IH as (Ho & Hl & Ht & Hc).
    destruct (write_file_counters rel ws f) as (Hl1 & Ht1 & Hc1).
    rewrite Ho, Hl, Ht, Hc, write_file_out, Hl1, Ht1, Hc1.
    unfold concat_all. cbn [fold_right snd]. rewrite append_assoc, !list_sum_cons.
    repeat split; lia.
Qed.

Lemma visit_directory_spec (ws : walk_state) (e : walk_entry) :
  let ws' := visit_directory ws e in
  let rs := entry_records e in
  ws_out ws' = ws_out ws +:+ concat_all (map block_of rs) /\
  folder_lines ws' = folder_lines ws + list_sum (map (fun r => lines_of (snd r)) rs) /\
  folder_tokens ws' = folder_tokens ws + list_sum (map (fun r => tokens_of (snd r)) rs) /\
  included_files_count ws' = included_files_count ws + length rs.
Proof.
  destruct e as [[root dirs] fs]. cbn zeta. unfold visit_directory, entry_records.
  rewrite length_map.
  set (inc := List.filter _ fs).
  set (ws1 := Build_walk_state _ _ _ _ _).
  pose proof (fold_write_file root inc ws1) as H. cbn zeta in H.
  destruct inc as [|f inc'] eqn:E.
  - cbn. rewrite append_nil_r. repeat split; lia.
  - exact H.
Qed.

Lemma fold_visit_directory (es : list walk_entry) (ws : walk_state) :
  let ws' := fold_left visit_directory es ws in
  let rs := flat_map entry_records es in
  ws_out ws' = ws_out ws +:+ concat_all (map block_of rs) /\
  folder_lines ws' = folder_lines ws + list_sum (map (fun r => lines_of (snd r)) rs) /\
  folder_tokens ws' = folder_tokens ws + list_sum (map (fun r => tokens_of (snd r)) rs) /\
  included_files_count ws' = included_files_count ws + length rs.
Proof.
  revert ws. induction es as [|e es IH]; intros ws; cbn zeta.
  - cbn. rewrite append_nil_r. repeat split; lia.
  - cbn [fold_left flat_map]. specialize (IH (visit_directory ws e)).
    cbn zeta in IH. destruct IH as (Ho & Hl & Ht & Hc).
    destruct (visit_directory_spec ws e) as (Ho1 & Hl1 & Ht1 & Hc1).
    rewrite Ho, Hl, Ht, Hc, Ho1, Hl1, Ht1, Hc1.
    rewrite !map_app, !list_sum_app, concat_all_app, length_app, append_assoc.
    repeat split; first [lia | symmetry; apply Nat.add_assoc].
Qed.

(** The artifact as first written is the two header lines followed by
    one block per included file; the counters are the sums over them. *)
Lemma write_artifact_spec (main_folder : string) (dir : node) :
  let ws := write_artifact main_folder dir in
  let rs := included_records main_folder dir in
  ws_out ws = artifact_header main_folder +:+ concat_all (map block_of rs) /\
  folder_lines ws = list_sum (map (fun r => lines_of (snd r)) rs) /\
  folder_tokens ws = list_sum (map (fun r => tokens_of (snd r)) rs) /\
  included_files_count ws = length rs.
Proof.
  cbn zeta. unfold write_artifact.
  match goal with |- context [fold_left visit_directory ?l ?w] =>
    destruct (fold_visit_directory l w) as (Ho & Hl & Ht & Hc) end.
  unfold included_records. rewrite Ho, Hl, Ht, Hc. cbn [ws_out folder_lines folder_tokens included_files_count].
  unfold write, artifact_header. rewrite append_nil_l.
  repeat split; lia.
Qed.

(** The walk includes as many files as the tree has matching names. *)
Lemma length_included_records (top : string) (n : node) :
  length (included_records top n) = count_matching n.
Proof.
  revert top. induction n as [d|es IH] using node_ind'; intros top; [reflexivity|].
  rewrite included_records_Dir, length_app. unfold records_in, matched.
  rewrite length_map. cbn [count_matching].
  induction es as [|[name sub] es IHes]; [reflexivity|].
  inversion IH as [|? ? Hsub Hes]; subst. cbn [snd] in Hsub.
  cbn [flat_map fst snd]. rewrite length_app, Hsub.
  specialize (IHes Hes).
  destruct sub as [d|es'].
  - cbn [nondirs List.filter fst count_matching].
    destruct (matches_extension name); cbn [length]; lia.
  - cbn [nondirs]. lia.
Qed.

(** ** The header rewrite *)

Lemma header_line_cons (main_folder : string) :
  header_line main_folder = String "/" (drop_first (header_line main_folder)).
Proof. reflexivity. Qed.

Lemma header_line_nonempty (main_folder : string) : header_line main_folder <> EmptyString.
Proof. rewrite header_line_cons. discriminate. Qed.

(** On a text that starts with the header line and a line feed, the
    replacement yields the new line, the line feed, and the replacement
    of what follows. *)
Lemma rewrite_header (main_folder new body : string) :
  str_replace (header_line main_folder) new ((header_line main_folder +:+ LF) +:+ body)
  = new +:+ LF +:+ str_replace (header_line main_folder) new body.
Proof.
  rewrite append_assoc.
  rewrite str_replace_head by apply header_line_nonempty.
  reflexivity.
Qed.

Lemma replace_go_miss (old new : string) (c : ascii) (s : string) :
  startswith (String c s) old = false ->
  replace_go old new 0 (String c s) = String c (replace_go old new 0 s).
Proof. intros H. cbn [replace_go]. now rewrite H. Qed.

(** Without an occurrence of the pattern the replacement changes nothing. *)
Lemma replace_go_no_occurrence (old new s : string) :
  occurs old s = false -> replace_go old new 0 s = s.
Proof.
  induction s as [|c s IH]; intros H; [reflexivity|].
  cbn [occurs] in H. apply orb_false_iff in H as [H1 H2].
  rewrite replace_go_miss by assumption. now rewrite IH.
Qed.

(** The rewrite pass leaves the text behind the first header line as it
    is, provided that text does not quote the header line. *)
Lemma rewrite_frame (main_folder new body : string) :
  occurs (header_line main_folder) body = false ->
  str_replace (header_line main_folder) new ((header_line main_folder +:+ LF) +:+ body)
  = new +:+ LF +:+ body.
Proof.
  intros H. rewrite rewrite_header.
  change (str_replace (header_line main_folder) new body)
    with (replace_go (header_line main_folder) new 0 body).
  now rewrite replace_go_no_occurrence.
Qed.

Lemma read_text_insert (fs : gmap string string) (p text : string) :
  read_text (<[p := text]> fs) p = text.
Proof. unfold read_text. now rewrite lookup_insert_eq. Qed.



(** ** Which files the walk meets *)

Lemma in_nondirs (es : list (string * node)) (name : string) (d : option string) :
  In (name, d) (nondirs es) <-> In (name, File d) es.
Proof.
  induction es as [|[n0 [d0|es0]] es IH]; cbn [nondirs In].
  - tauto.
  - rewrite IH. split; (intros [E|?]; [left; congruence | now right]).
  - rewrite IH. split; [now right | intros [E|?]; [discriminate | assumption]].
Qed.

Lemma in_walk_dirs (top : string) (es : list (string * node)) (e : walk_entry) :
  In e (walk_dirs top es) <->
  exists dname sub, In (dname, sub) es /\ In e (walk (path_join top dname) sub).
Proof.
  unfold walk_dirs. rewrite in_flat_map. split.
  - intros [[dname sub] [Hin He]]. now exists dname, sub.
  - intros (dname & sub & Hin & He). now exists (dname, sub).
Qed.

Lemma walk_sound (n : node) :
  forall (top rel : string) (dirs : list string) (fs : list (string * option string))
         (name : string) (d : option string),
  In (rel, dirs, fs) (walk top n) -> In (name, d) fs ->
  exists p, rel = rel_path top p /\ file_at n p name d.
Proof.
  induction n as [d0|es IH] using node_ind'; intros top rel dirs fs name d Hw Hf.
  - destruct Hw.
  - rewrite walk_Dir in Hw. destruct Hw as [E|Hw].
    + injection E as <- <- <-. exists []. split; [reflexivity|].
      apply file_here. now apply in_nondirs.
    + apply in_walk_dirs in Hw as (dname & sub & Hin & Hw).
      rewrite List.Forall_forall in IH.
      destruct (IH (dname, sub) Hin _ _ _ _ _ _ Hw Hf) as (p & -> & Hat).
      exists (dname :: p). split; [reflexivity|].
      now apply file_below with sub.
Qed.

Lemma walk_complete (n : node) (p : list string) (name : string) (d : option string) :
  file_at n p name d ->
  forall top, exists dirs fs,
    In (rel_path top p, dirs, fs) (walk top n) /\ In (name, d) fs.
Proof.
  induction 1 as [es name d Hin | es dname sub p name d Hin Hat IH]; intros top.
  - exists (dirnames es), (nondirs es). rewrite walk_Dir. split; [now left|].
    now apply in_nondirs.
  - destruct (IH (path_join top dname)) as (dirs & fs & Hw & Hf).
    exists dirs, fs. split; [|assumption].
    rewrite walk_Dir. right. apply in_walk_dirs. now exists dname, sub.
Qed.

Lemma in_included_records (top : string) (n : node) (rel name : string) (d : option string) :
  In (rel, name, d) (included_records top n) <->
  (exists dirs fs, In (rel, dirs, fs) (walk top n) /\ In (name, d) fs)
  /\ matches_extension name = true.
Proof.
  unfold included_records. rewrite in_flat_map. split.
  - intros ([[root dirs] fs] & Hw & Hr). unfold entry_records in Hr.
    apply in_map_iff in Hr as ([name' d'] & E & Hf).
    apply filter_In in Hf as [Hf Hm]. cbn [fst snd] in *.
    injection E as <- <- <-. split; [now exists dirs, fs | assumption].
  - intros [(dirs & fs & Hw & Hf) Hm]. exists (rel, dirs, fs). split; [assumption|].
    unfold entry_records. apply in_map_iff. exists (name, d). split; [reflexivity|].
    apply filter_In. now split.
Qed.

Lemma matches_extension_spec (name : string) :
  matches_extension name = true <->
  exists ext pre, In ext extensions /\ name = pre +:+ ext.
Proof.
  unfold matches_extension. rewrite existsb_exists. split.
  - intros (ext & Hin & He). apply endswith_spec in He as [pre ->]. now exists ext, pre.
  - intros (ext & pre & Hin & ->). exists ext. split; [assumption|].
    apply endswith_spec. now exists pre.
Qed.

(** C7. The walk of a folder meets every file below it, at any depth,
    and includes a file (the artifact body is the blocks of the included
    files) exactly when its name is some text followed by one of the
    eight recognized extensions, compared byte for byte (so an
    upper-case spelling of an extension does not match). *)
Theorem C7_walk_includes_exactly_suffix_matches
  (top : string) (n : node) (rel name : string) (d : option string) :
  ws_out (write_artifact top n)
  = artifact_header top +:+ concat_all (map block_of (included_records top n)) /\
  ((exists dirs fs, In (rel, dirs, fs) (walk top n) /\ In (name, d) fs) <->
   (exists p, rel = rel_path top p /\ file_at n p name d)) /\
  (In (rel, name, d) (included_records top n) <->
   (exists p, rel = rel_path top p /\ file_at n p name d) /\
   (exists ext pre, In ext extensions /\ name = pre +:+ ext)) /\
  length extensions = 8 /\
  matches_extension "page.tsx" = true /\
  matches_extension "page.TSX" = false.
Proof.
  assert (Hv : (exists dirs fs, In (rel, dirs, fs) (walk top n) /\ In (name, d) fs) <->
               (exists p, rel = rel_path top p /\ file_at n p name d)).
  { split.
    - intros (dirs & fs & Hw & Hf). now apply walk_sound with dirs fs.
    - intros (p & -> & Hat). now apply walk_complete. }
  split; [apply write_artifact_spec|].
  split; [exact Hv|]. split; [|repeat split; reflexivity].
  now rewrite in_included_records, Hv, matches_extension_spec.
Qed.

(** ** The mapper *)

Lemma dict_get_absent {V : Type} (d : list (string * V)) (k : string) (dflt : V) :
  (forall v, ~ In (k, v) d) -> dict_get d k dflt = dflt.
Proof.
  induction d as [|[k' v'] d IH]; intros H; [reflexivity|]. cbn [dict_get].
  destruct (String.eqb_spec k' k) as [->|_].
  - exfalso. apply (H v'). now left.
  - apply IH. intros v Hv. apply (H v). now right.
Qed.

Lemma dict_get_present {V : Type} (d : list (string * V)) (k : string) (v dflt : V) :
  List.NoDup (map fst d) -> In (k, v) d -> dict_get d k dflt = v.
Proof.
  induction d as [|[k' v'] d IH]; intros Hnd Hin; [destruct Hin|].
  cbn [map fst] in Hnd. apply List.NoDup_cons_iff in Hnd as [Hk Hnd]. cbn [dict_get].
  destruct Hin as [E|Hin].
  - injection E as -> ->. now rewrite String.eqb_refl.
  - destruct (String.eqb_spec k' k) as [->|_]; [|now apply IH].
    exfalso. apply Hk. apply in_map_iff. now exists (k, v).
Qed.

Lemma extension_map_keys_distinct : List.NoDup (map fst extension_map).
Proof.
  cbn [extension_map map fst].
  repeat (apply List.NoDup_cons; [cbn [In]; intros H; repeat destruct H as [H|H]; discriminate H || exact H|]).
  apply List.NoDup_nil.
Qed.

(** C8. The mapper is a total function of its argument alone.  Two
    extensions that differ only in letter case get the same tag; an
    extension whose lower-case form (leading dot included) is a key of
    the table gets that key's tag; any other extension gets
    [plaintext]. *)
Theorem C8_mapper_case_insensitive_with_default (e1 e2 : string) :
  (lower e1 = lower e2 ->
   map_extension_to_language e1 = map_extension_to_language e2) /\
  (forall tag, In (lower e1, tag) extension_map ->
   map_extension_to_language e1 = tag) /\
  ((forall tag, ~ In (lower e1, tag) extension_map) ->
   map_extension_to_language e1 = "plaintext").
Proof.
  unfold map_extension_to_language. split; [|split].
  - now intros ->.
  - intros tag Hin. now apply dict_get_present; [apply extension_map_keys_distinct|].
  - apply dict_get_absent.
Qed.

(** ** Runs that differ in the console only *)

Lemma same_data_refl (st : run_state) : same_data st st.
Proof. now repeat split. Qed.

Lemma process_folder_skip (src_dir output_dir : string) (src : list (string * node))
  (st : run_state) (main_folder : string) :
  not_a_directory src main_folder ->
  same_data (process_folder src_dir output_dir src st main_folder) st /\
  console (process_folder src_dir output_dir src st main_folder)
  = console st ++ [warning_line src_dir main_folder].
Proof.
  intros [H|[d H]]; unfold process_folder; rewrite H; now repeat split.
Qed.







(** ** The console only grows *)





(** ** The keys of the folder summary *)





(** ** Counters against the tree *)

(** A per-file measure summed over the included records is the measure
    summed over the decodable matching files of the tree: undecodable
    files add nothing. *)
Lemma sum_included_decoded (g : string -> nat) (n : node) :
  forall top,
  list_sum (map (fun r : file_record =>
                   match snd r with Some c => g c | None => 0 end)
                (included_records top n))
  = list_sum (map g (decoded_matching n)).
Proof.
  induction n as [d|es IH] using node_ind'; intros top; [reflexivity|].
  rewrite included_records_Dir, map_app, list_sum_app.
  unfold records_in, matched. cbn [decoded_matching].
  induction es as [|[name sub] es IHes]; [reflexivity|].
  inversion IH as [|? ? Hsub Hes]; subst. cbn [snd] in Hsub.
  specialize (IHes Hes). specialize (Hsub (path_join top name)).
  cbn [flat_map fst snd]. rewrite map_app, list_sum_app, Hsub.
  destruct sub as [[c|]|es'].
  - cbn [nondirs List.filter fst decoded_matching map list_sum].
    destruct (matches_extension name); cbn [map snd]; rewrite ?list_sum_cons;
      cbn [list_sum fold_right] in *; lia.
  - cbn [nondirs List.filter fst decoded_matching map].
    destruct (matches_extension name); cbn [map snd]; rewrite ?list_sum_cons;
      cbn [list_sum fold_right] in *; lia.
  - cbn [nondirs]. rewrite map_app, list_sum_app. lia.
Qed.

Lemma folder_lines_decoded (main_folder : string) (dir : node) :
  folder_lines (write_artifact main_folder dir)
  = list_sum (map (fun c => length (splitlines c)) (decoded_matching dir)).
Proof.
  destruct (write_artifact_spec main_folder dir) as (_ & Hl & _ & _).
  rewrite Hl. apply (sum_included_decoded (fun c => length (splitlines c))).
Qed.

Lemma folder_tokens_decoded (main_folder : string) (dir : node) :
  folder_tokens (write_artifact main_folder dir)
  = list_sum (map (fun c => length (tokenizer_encode c)) (decoded_matching dir)).
Proof.
  destruct (write_artifact_spec main_folder dir) as (_ & _ & Ht & _).
  rewrite Ht. apply (sum_included_decoded (fun c => length (tokenizer_encode c))).
Qed.

Lemma process_folder_totals (src_dir output_dir : string)
  (src : list (string * node)) (st : run_state) (main_folder : string)
  (es : list (string * node)) :
  lookup_entry main_folder src = Some (Dir es) ->
  let st' := process_folder src_dir output_dir src st main_folder in
  let ws := write_artifact main_folder (Dir es) in
  total_lines_of_code st' = total_lines_of_code st + folder_lines ws /\
  total_tokens st' = total_tokens st + folder_tokens ws /\
  folder_summary st'
  = dict_set (folder_summary st) main_folder (folder_lines ws, folder_tokens ws) /\
  consolidated_files st'
  = consolidated_files st ++ [output_file_of output_dir main_folder].
Proof.
  intros H. cbn zeta. unfold process_folder. rewrite H. now repeat split.
Qed.


(** ** Aggregate totals *)

Lemma process_folder_dir (src_dir output_dir : string)
  (src : list (string * node)) (st : run_state) (g : string) (es : list (string * node)) :
  lookup_entry g src = Some (Dir es) ->
  let st' := process_folder src_dir output_dir src st g in
  total_lines_of_code st' = total_lines_of_code st + tree_lines (Dir es) /\
  total_tokens st' = total_tokens st + tree_tokens (Dir es) /\
  folder_summary st'
  = dict_set (folder_summary st) g (tree_lines (Dir es), tree_tokens (Dir es)).
Proof.
  intros H. cbn zeta.
  destruct (process_folder_totals src_dir output_dir src st g es H) as (Hl & Ht & Hs & _).
  rewrite Hl, Ht, Hs, folder_lines_decoded, folder_tokens_decoded. now repeat split.
Qed.

Lemma process_folder_not_dir (src_dir output_dir : string)
  (src : list (string * node)) (st : run_state) (g : string) :
  (forall es, lookup_entry g src <> Some (Dir es)) ->
  same_data (process_folder src_dir output_dir src st g) st.
Proof.
  intros H. apply process_folder_skip.
  destruct (lookup_entry g src) as [[d|es]|] eqn:E.
  - right. now exists d.
  - now destruct (H es).
  - now left.
Qed.

Lemma processed_dirs_cons (src : list (string * node)) (g : string) (l : list string) :
  processed_dirs src (g :: l)
  = match lookup_entry g src with
    | Some (Dir es) => [(g, Dir es)]
    | _ => []
    end ++ processed_dirs src l.
Proof. reflexivity. Qed.

Lemma totals_of_run (src_dir output_dir : string) (src : list (string * node))
  (l : list string) (st : run_state) :
  let st' := process_folders src_dir output_dir src l st in
  total_lines_of_code st'
  = total_lines_of_code st
    + list_sum (map (fun fd => tree_lines (snd fd)) (processed_dirs src l)) /\
  total_tokens st'
  = total_tokens st
    + list_sum (map (fun fd => tree_tokens (snd fd)) (processed_dirs src l)).
Proof.
  cbn zeta. unfold process_folders. revert st.
  induction l as [|g l IH]; intros st; [cbn [fold_left processed_dirs flat_map map]; change (list_sum []) with 0; lia|].
  cbn [fold_left]. rewrite processed_dirs_cons.
  destruct (IH (process_folder src_dir output_dir src st g)) as [Hl Ht].
  rewrite Hl, Ht, !map_app, !list_sum_app.
  destruct (lookup_entry g src) as [[d|es]|] eqn:E.
  - destruct (process_folder_not_dir src_dir output_dir src st g) as (_ & Hl' & Ht' & _);
      [congruence|]. rewrite Hl', Ht'. cbn [map]. change (list_sum []) with 0. split; lia.
  - destruct (process_folder_dir src_dir output_dir src st g es E) as (Hl' & Ht' & _).
    rewrite Hl', Ht'. cbn [map snd]. rewrite !list_sum_cons.
    change (list_sum []) with 0. split; lia.
  - destruct (process_folder_not_dir src_dir output_dir src st g) as (_ & Hl' & Ht' & _);
      [congruence|]. rewrite Hl', Ht'. cbn [map]. change (list_sum []) with 0. split; lia.
Qed.




(** ** The output store as a log of writes *)

Lemma lookup_apply_writes (w : list (string * string)) (fs : gmap string string)
  (k : string) :
  apply_writes w fs !! k
  = match last_write w k with
    | Some v => Some v
    | None => fs !! k
    end.
Proof.
  unfold apply_writes. revert fs.
  induction w as [|[k0 v0] w IH]; intros fs; [reflexivity|].
  cbn [fold_left last_write fst snd]. rewrite IH.
  destruct (last_write w k); [reflexivity|].
  destruct (String.eqb_spec k0 k) as [->|Hne].
  - apply lookup_insert_eq.
  - now apply lookup_insert_ne.
Qed.

Lemma last_write_in (w : list (string * string)) (k : string) :
  In k (map fst w) -> exists v, last_write w k = Some v.
Proof.
  induction w as [|[k0 v0] w IH]; intros H; [destruct H|].
  cbn [last_write]. destruct (last_write w k) as [v|] eqn:E; [now exists v|].
  destruct H as [H|H].
  - cbn [fst] in H. subst k0. rewrite String.eqb_refl. now exists v0.
  - destruct (IH H) as [v Hv]. discriminate.
Qed.

Lemma apply_writes_app (w1 w2 : list (string * string)) (fs : gmap string string) :
  apply_writes (w1 ++ w2) fs = apply_writes w2 (apply_writes w1 fs).
Proof. unfold apply_writes. apply fold_left_app. Qed.

Lemma loop_writes_cons (output_dir : string) (src : list (string * node))
  (g : string) (l : list string) :
  loop_writes output_dir src (g :: l)
  = match lookup_entry g src with
    | Some (Dir es) => [(output_file_of output_dir g, final_artifact g (Dir es))]
    | _ => []
    end ++ loop_writes output_dir src l.
Proof. reflexivity. Qed.

(** What one iteration does to the store and to the list of artifacts. *)
Lemma process_folder_writes (src_dir output_dir : string)
  (src : list (string * node)) (st : run_state) (g : string) :
  let st' := process_folder src_dir output_dir src st g in
  files st' = apply_writes (loop_writes output_dir src [g]) (files st) /\
  consolidated_files st'
  = consolidated_files st ++ map fst (loop_writes output_dir src [g]).
Proof.
  cbn zeta. unfold process_folder, loop_writes. cbn [flat_map].
  destruct (lookup_entry g src) as [[d|es]|];
    cbn [files consolidated_files app map apply_writes fold_left fst snd];
    rewrite ?app_nil_r; try (split; reflexivity).
  rewrite read_text_insert, insert_insert_eq. split; reflexivity.
Qed.

Lemma process_folders_writes (src_dir output_dir : string)
  (src : list (string * node)) (l : list string) (st : run_state) :
  let st' := process_folders src_dir output_dir src l st in
  files st' = apply_writes (loop_writes output_dir src l) (files st) /\
  consolidated_files st'
  = consolidated_files st ++ map fst (loop_writes output_dir src l).
Proof.
  cbn zeta. unfold process_folders. revert st.
  induction l as [|g l IH]; intros st.
  - cbn. now rewrite app_nil_r.
  - cbn [fold_left]. destruct (IH (process_folder src_dir output_dir src st g)) as [Hf Hc].
    destruct (process_folder_writes src_dir output_dir src st g) as [Hf1 Hc1].
    rewrite Hf, Hc, Hf1, Hc1, (loop_writes_cons _ _ g l), (loop_writes_cons _ _ g []).
    change (loop_writes output_dir src []) with (@nil (string * string)).
    now rewrite app_nil_r, apply_writes_app, map_app, <- app_assoc.
Qed.

(** ** The master artifact *)

Lemma fold_manifest (cfs : list string) (m : string) :
  fold_left (fun m cf => write m (manifest_line cf)) cfs m
  = m +:+ concat_all (map manifest_line cfs).
Proof.
  revert m. induction cfs as [|cf cfs IH]; intros m.
  - cbn. now rewrite append_nil_r.
  - cbn [fold_left map]. rewrite IH. unfold write, concat_all. cbn [fold_right].
    now rewrite append_assoc.
Qed.

Lemma fold_append_artifact (fs : gmap string string) (cfs : list string) (m : string) :
  fold_left (append_artifact fs) cfs m = m +:+ concat_all (map (wrapped fs) cfs).
Proof.
  revert m. induction cfs as [|cf cfs IH]; intros m.
  - cbn. now rewrite append_nil_r.
  - cbn [fold_left map]. rewrite IH. unfold append_artifact, wrapped, write, concat_all.
    cbn [fold_right]. now rewrite !append_assoc.
Qed.

Lemma master_head_eq (st : run_state) :
  master_head st
  = manifest_block (consolidated_files st)
    +:+ statistics_block (total_lines_of_code st) (total_tokens st).
Proof.
  unfold master_head, manifest_block, statistics_block, write.
  rewrite fold_manifest, append_nil_l. now rewrite !append_assoc.
Qed.

(** The master artifact: manifest, statistics, then every listed
    artifact, as read from the store, between its markers. *)
Lemma compose_master_text (output_dir : string) (st : run_state) :
  let fs0 := <[master_file_path_of output_dir := EmptyString]> (files st) in
  files (compose_master output_dir st)
  = <[master_file_path_of output_dir :=
        (manifest_block (consolidated_files st)
         +:+ statistics_block (total_lines_of_code st) (total_tokens st))
        +:+ concat_all (map (wrapped fs0) (consolidated_files st))]> (files st).
Proof.
  cbn zeta. unfold compose_master. cbn [files].
  fold (master_file_path_of output_dir).
  now rewrite insert_insert_eq, fold_append_artifact, master_head_eq.
Qed.

(** ** The run as a function of the initial output store *)

Lemma read_listed (output_dir : string) (w : list (string * string))
  (fs : gmap string string) (cf : string) :
  In cf (map fst w) ->
  read_text (<[master_file_path_of output_dir := EmptyString]> (apply_writes w fs)) cf
  = listed_text output_dir w cf.
Proof.
  intros Hin. unfold read_text, listed_text.
  destruct (String.eqb_spec (master_file_path_of output_dir) cf) as [->|Hne].
  - now rewrite lookup_insert_eq.
  - rewrite lookup_insert_ne by assumption. rewrite lookup_apply_writes.
    destruct (last_write_in w cf Hin) as [v ->]. reflexivity.
Qed.

Lemma run_files (src_dir output_dir : string) (src : list (string * node))
  (l : list string) (outdir : option (gmap string string)) :
  let r := consolidate_nextjs_files src_dir output_dir (Some l) src outdir in
  files r = run_store output_dir src l (default ∅ outdir) /\
  consolidated_files r = map fst (loop_writes output_dir src l).
Proof.
  cbn zeta. unfold consolidate_nextjs_files.
  change (default default_main_folders (Some l)) with l.
  set (st0 := initial_state output_dir outdir).
  set (st := process_folders src_dir output_dir src l st0).
  destruct (process_folders_writes src_dir output_dir src l st0) as [Hf Hc].
  destruct (totals_of_run src_dir output_dir src l st0) as [Hl Ht].
  fold st in Hf, Hc, Hl, Ht. cbn [st0 initial_state files consolidated_files
    total_lines_of_code total_tokens app Nat.add] in Hf, Hc, Hl, Ht.
  split; [|exact Hc].
  change (files (report_summary (compose_master output_dir st)))
    with (files (compose_master output_dir st)).
  rewrite compose_master_text, Hc, Hl, Ht, Hf. unfold run_store, master_of.
  do 3 f_equal. apply map_ext_in. intros cf Hin. unfold wrapped.
  now rewrite read_listed.
Qed.

Lemma run_store_idempotent (output_dir : string) (src : list (string * node))
  (l : list string) (fs : gmap string string) :
  run_store output_dir src l (run_store output_dir src l fs)
  = run_store output_dir src l fs.
Proof.
  apply map_eq. intros k. unfold run_store.
  destruct (String.eqb_spec (master_file_path_of output_dir) k) as [->|Hne].
  - now rewrite !lookup_insert_eq.
  - rewrite !(lookup_insert_ne _ _ _ _ Hne), !lookup_apply_writes.
    destruct (last_write (loop_writes output_dir src l) k) eqn:E; [reflexivity|].
    now rewrite (lookup_insert_ne _ _ _ _ Hne), lookup_apply_writes, E.
Qed.

(** The paths a run writes: the master and the listed artifacts. *)
Lemma run_store_written (output_dir : string) (src : list (string * node))
  (l : list string) (fs1 fs2 : gmap string string) (k : string) :
  k = master_file_path_of output_dir
  \/ In k (map fst (loop_writes output_dir src l)) ->
  run_store output_dir src l fs1 !! k = run_store output_dir src l fs2 !! k.
Proof.
  intros H. unfold run_store.
  destruct (String.eqb_spec (master_file_path_of output_dir) k) as [->|Hne].
  - now rewrite !lookup_insert_eq.
  - rewrite !(lookup_insert_ne _ _ _ _ Hne), !lookup_apply_writes.
    destruct H as [->|H]; [contradiction|].
    destruct (last_write_in _ k H) as [v ->]. reflexivity.
Qed.

(** C9. With the directory listings given by the tree and the tokenizer
    a function, a second run over the same tree and configuration, started
    on the output directory the first run left, leaves every file of it
    byte for byte as it was; and the master and per-folder artifacts of
    a run do not depend on what the output directory held before. *)
Theorem C9_second_run_reproduces_artifacts
  (src_dir output_dir : string) (src : list (string * node))
  (main_folders : list string) (outdir outdir' : option (gmap string string)) :
  let r1 := consolidate_nextjs_files src_dir output_dir (Some main_folders) src outdir in
  let r2 := consolidate_nextjs_files src_dir output_dir (Some main_folders) src
              (Some (files r1)) in
  let r' := consolidate_nextjs_files src_dir output_dir (Some main_folders) src outdir' in
  files r2 = files r1 /\
  consolidated_files r2 = consolidated_files r1 /\
  consolidated_files r' = consolidated_files r1 /\
  forall path,
    path = master_file_path_of output_dir \/ In path (consolidated_files r1) ->
    files r' !! path = files r1 !! path.
Proof.
  cbn zeta.
  destruct (run_files src_dir output_dir src main_folders outdir) as [Hf1 Hc1].
  destruct (run_files src_dir output_dir src main_folders outdir') as [Hf' Hc'].
  destruct (run_files src_dir output_dir src main_folders
              (Some (files (consolidate_nextjs_files src_dir output_dir
                              (Some main_folders) src outdir)))) as [Hf2 Hc2].
  rewrite Hf2, Hc2, Hc', Hf', Hc1. cbn [default from_option id]. rewrite Hf1.
  split; [apply run_store_idempotent|]. split; [reflexivity|]. split; [reflexivity|].
  intros path H. now apply run_store_written.
Qed.

(** ** A folder without matching files *)

Lemma length_append (a b : string) :
  String.length (a +:+ b) = String.length a + String.length b.
Proof.
  induction a as [|c a IH]; [reflexivity|].
  rewrite append_cons. cbn [String.length]. now rewrite IH.
Qed.













(** ** Path arithmetic *)

Lemma has_char_app (c : ascii) (a b : string) :
  has_char c (a +:+ b) = has_char c a || has_char c b.
Proof.
  induction a as [|d a IH]; [reflexivity|].
  rewrite append_cons. cbn [has_char]. now rewrite IH, orb_assoc.
Qed.

Lemma rfind_from_absent (c : ascii) (s : string) (i acc : Z) :
  has_char c s = false -> rfind_from c s i acc = acc.
Proof.
  revert i acc. induction s as [|d s IH]; intros i acc H; [reflexivity|].
  cbn [has_char] in H. apply orb_false_iff in H as [Hd Hs].
  cbn [rfind_from]. rewrite Hd. now apply IH.
Qed.

(** The last occurrence of [c] is the one no [c] follows. *)
Lemma rfind_from_last (c : ascii) (x b : string) (i acc : Z) :
  has_char c b = false ->
  rfind_from c (x +:+ String c b) i acc = (i + Z.of_nat (String.length x))%Z.
Proof.
  intros Hb. revert i acc. induction x as [|d x IH]; intros i acc.
  - rewrite append_nil_l. cbn [rfind_from String.length].
    rewrite Ascii.eqb_refl, rfind_from_absent by assumption. lia.
  - rewrite append_cons. cbn [rfind_from String.length]. rewrite IH. lia.
Qed.

Lemma substring_0_app (a b : string) :
  substring 0 (String.length a) (a +:+ b) = a.
Proof.
  induction a as [|c a IH]; [now destruct b|].
  rewrite append_cons. cbn [String.length substring]. now rewrite IH.
Qed.

Lemma substring_0_all (s : string) : substring 0 (String.length s) s = s.
Proof.
  induction s as [|c s IH]; [reflexivity|].
  cbn [String.length substring]. now rewrite IH.
Qed.

Lemma substring_skip_app (a b : string) (m : nat) :
  substring (String.length a) m (a +:+ b) = substring 0 m b.
Proof.
  induction a as [|c a IH]; [reflexivity|].
  rewrite append_cons. cbn [String.length substring]. exact IH.
Qed.

Lemma slice_from_app (a b : string) :
  slice_from (a +:+ b) (Z.of_nat (String.length a)) = b.
Proof.
  unfold slice_from. rewrite Nat2Z.id, length_append, substring_skip_app.
  replace (String.length a + String.length b - String.length a)
    with (String.length b) by lia.
  apply substring_0_all.
Qed.

(** The base name of a path is what follows its last separator. *)
Lemma basename_after_sep (x b : string) :
  has_char "/" b = false -> basename (x +:+ String "/" b) = b.
Proof.
  intros Hb. unfold basename, rfind. rewrite rfind_from_last by assumption.
  change (x +:+ String "/" b) with (x +:+ (String "/" EmptyString +:+ b)).
  rewrite <- append_assoc.
  replace (0 + Z.of_nat (String.length x) + 1)%Z
    with (Z.of_nat (String.length (x +:+ String "/" EmptyString)))
    by (rewrite length_append; cbn [String.length]; lia).
  apply slice_from_app.
Qed.

Lemma basename_plain (b : string) : has_char "/" b = false -> basename b = b.
Proof.
  intros Hb. unfold basename, rfind. rewrite rfind_from_absent by assumption.
  exact (slice_from_app EmptyString b).
Qed.

Lemma startswith_sep_has_char (s : string) :
  has_char "/" s = false -> startswith s "/" = false.
Proof.
  destruct s as [|c s]; [reflexivity|]. cbn [has_char startswith].
  intros H. apply orb_false_iff in H as [H _].
  rewrite Ascii.eqb_sym in H. now rewrite H.
Qed.

(** [os.path.join] with a second part free of separators only prefixes it. *)
Lemma path_join_plain (a b : string) :
  has_char "/" b = false ->
  path_join a b = b \/ exists x, path_join a b = x +:+ String "/" b.
Proof.
  intros Hb. unfold path_join. rewrite startswith_sep_has_char by assumption.
  destruct (String.eqb_spec a EmptyString) as [->|Hne]; [now left|].
  cbn [orb]. destruct (endswith a "/") eqn:E.
  - apply endswith_spec in E as [x ->]. right. exists x.
    now rewrite append_assoc.
  - right. now exists a.
Qed.

Lemma basename_path_join (a b : string) :
  has_char "/" b = false -> basename (path_join a b) = b.
Proof.
  intros Hb. destruct (path_join_plain a b Hb) as [->|[x ->]].
  - now apply basename_plain.
  - now apply basename_after_sep.
Qed.

(** ** Recovering the folder name from the artifact name *)

(** One more character of the text is compared with the pattern. *)
Ltac straddle_step t :=
  let c := fresh "c" in
  let E := fresh "E" in
  destruct t as [|c t];
  [ reflexivity
  | rewrite append_cons; cbn [startswith] in *;
    destruct (Ascii.eqb _ c) eqn:E; [|reflexivity] ].

(** The suffix does not overlap itself: an occurrence in [t ++ suffix]
    that starts inside [t] lies within [t]. *)
Lemma suffix_no_straddle (t : string) :
  t <> EmptyString ->
  startswith t artifact_suffix = false ->
  startswith (t +:+ artifact_suffix) artifact_suffix = false.
Proof.
  unfold artifact_suffix. intros Hne H.
  destruct t as [|c0 t]; [congruence|]. clear Hne.
  rewrite append_cons. cbn [startswith] in *.
  destruct (Ascii.eqb _ c0) eqn:E0; [|reflexivity].
  do 16 straddle_step t. discriminate H.
Qed.

Lemma replace_suffix_of_name (f : string) :
  occurs artifact_suffix f = false ->
  str_replace artifact_suffix EmptyString (f +:+ artifact_suffix) = f.
Proof.
  change (str_replace artifact_suffix EmptyString)
    with (replace_go artifact_suffix EmptyString 0).
  induction f as [|c f IH]; intros H; [reflexivity|].
  cbn [occurs] in H. apply orb_false_iff in H as [H1 H2].
  pose proof (suffix_no_straddle (String c f)) as Hs. rewrite append_cons in *.
  rewrite replace_go_miss by (apply Hs; [discriminate|assumption]).
  f_equal. now apply IH.
Qed.

Lemma has_char_suffix (f : string) :
  has_char "/" f = false -> has_char "/" (f +:+ artifact_suffix) = false.
Proof. intros H. now rewrite has_char_app, H. Qed.

(** X1. For a folder name without a separator that does not contain the
    artifact suffix, the base name of its artifact path is the name
    followed by the suffix, and removing the suffix gives the name back:
    the manifest line shows the artifact's file name and both markers of
    the master carry the folder's name. *)
Theorem X1_folder_name_recovered (output_dir main_folder : string) :
  has_char "/" main_folder = false ->
  occurs artifact_suffix main_folder = false ->
  let cf := output_file_of output_dir main_folder in
  basename cf = main_folder +:+ artifact_suffix /\
  folder_name_of cf = main_folder /\
  manifest_line cf = "// - " +:+ main_folder +:+ artifact_suffix +:+ LF /\
  start_marker (folder_name_of cf)
  = "// ===== Start of " +:+ main_folder +:+ " folder =====" +:+ LF +:+ LF /\
  end_marker (folder_name_of cf)
  = LF +:+ "// ===== End of " +:+ main_folder +:+ " folder =====" +:+ LF +:+ LF.
Proof.
  intros Hsep Hfree cf.
  assert (Hb : basename cf = main_folder +:+ artifact_suffix).
  { unfold cf, output_file_of. apply basename_path_join. now apply has_char_suffix. }
  assert (Hn : folder_name_of cf = main_folder).
  { unfold folder_name_of. rewrite Hb. now apply replace_suffix_of_name. }
  unfold manifest_line. rewrite Hn, Hb, append_assoc. now repeat split.
Qed.

(** ** Artifact paths *)






Lemma last_write_absent (w : list (string * string)) (k : string) :
  ~ In k (map fst w) -> last_write w k = None.
Proof.
  induction w as [|[k0 v0] w IH]; intros H; [reflexivity|].
  cbn [map fst In] in H. cbn [last_write]. rewrite IH by tauto.
  destruct (String.eqb_spec k0 k); [tauto | reflexivity].
Qed.













(** X6. A run leaves every file of the output directory other than the
    master and the listed artifacts as it found it: nothing else is
    created, changed or removed. *)
Theorem X6_other_output_files_untouched
  (src_dir output_dir : string) (src : list (string * node))
  (outdir : option (gmap string string)) (main_folders : list string)
  (path : string) :
  path <> master_file_path_of output_dir ->
  let r := consolidate_nextjs_files src_dir output_dir (Some main_folders) src outdir in
  ~ In path (consolidated_files r) ->
  files r !! path = default ∅ outdir !! path.
Proof.
  intros Hm r Hc.
  destruct (run_files src_dir output_dir src main_folders outdir) as [Hf Hcf].
  fold r in Hf, Hcf. rewrite Hf. unfold run_store.
  rewrite lookup_insert_ne by congruence.
  rewrite lookup_apply_writes, last_write_absent; [reflexivity|].
  now rewrite <- Hcf.
Qed.

(** ** The summary and the final report *)




(** ** The file type and language of a block *)

(** A name made of a separator-free stem and a single-dot extension. *)
Lemma splitext_stem_ext (stem e : string) :
  has_char "/" stem = false -> has_char "/" e = false -> has_char "." e = false ->
  splitext (stem +:+ String "." e)
  = if all_dots stem then (stem +:+ String "." e, EmptyString)
    else (stem, String "." e).
Proof.
  intros Hs He Hd. unfold splitext, rfind.
  rewrite (rfind_from_absent "/") by (rewrite has_char_app, Hs; cbn [has_char orb];
                                      now rewrite He).
  rewrite rfind_from_last by assumption.
  assert (Hlt : (-1 <? 0 + Z.of_nat (String.length stem))%Z = true)
    by (apply Z.ltb_lt; lia).
  rewrite Hlt. unfold slice.
  replace (Z.to_nat (-1 + 1)) with 0 by reflexivity.
  replace (Z.to_nat (0 + Z.of_nat (String.length stem) - (-1 + 1)))
    with (String.length stem) by lia.
  replace (Z.to_nat 0) with 0 by reflexivity.
  replace (Z.to_nat (0 + Z.of_nat (String.length stem) - 0))
    with (String.length stem) by lia.
  rewrite substring_0_app. destruct (all_dots stem); [reflexivity|].
  now rewrite Z.add_0_l, slice_from_app.
Qed.

Lemma extension_shape (ext : string) :
  In ext extensions ->
  exists e, ext = String "." e /\ has_char "/" e = false /\ has_char "." e = false
            /\ In (ext, map_extension_to_language ext) extension_map
            /\ map_extension_to_language ext <> "plaintext".
Proof.
  intros H. cbn [extensions In] in H.
  repeat (destruct H as [<-|H];
          [eexists; split; [reflexivity|];
           split; [reflexivity|]; split; [reflexivity|];
           split; [cbn; tauto | discriminate]|]).
  destruct H.
Qed.

(** X8. For a file name made of a separator-free stem and one of the
    eight recognized extensions, [splitext] returns that extension
    unless the stem consists of dots only (the empty stem included).
    The block of such a decodable file then shows the extension without
    its dot as file type and opens its fence with the table's tag for
    the extension, which is never [plaintext]; a dots-only stem gives an
    empty file type and the tag [plaintext]. *)
Theorem X8_block_file_type_and_language
  (stem ext relative_path content : string) :
  In ext extensions ->
  has_char "/" stem = false ->
  let file_name := stem +:+ ext in
  let ext' := if all_dots stem then EmptyString else ext in
  matches_extension file_name = true /\
  snd (splitext file_name) = ext' /\
  In (ext, map_extension_to_language ext) extension_map /\
  map_extension_to_language ext <> "plaintext" /\
  block_of (relative_path, file_name, Some content)
  = ("// Directory: " +:+ relative_path +:+ ", File: " +:+ file_name +:+ LF)
    +:+ ("// File Type: " +:+ drop_first ext' +:+ LF)
    +:+ (FENCE +:+ (if all_dots stem then "plaintext"
                    else map_extension_to_language ext) +:+ LF)
    +:+ content +:+ (LF +:+ FENCE +:+ LF +:+ LF).
Proof.
  intros Hext Hstem file_name ext'.
  destruct (extension_shape ext Hext) as (e & -> & He & Hd & Htab & Hplain).
  assert (Hsp : snd (splitext file_name) = ext').
  { unfold file_name, ext'. rewrite splitext_stem_ext by assumption.
    now destruct (all_dots stem). }
  split.
  { apply matches_extension_spec. now exists (String "." e), stem. }
  split; [exact Hsp|]. split; [exact Htab|]. split; [exact Hplain|].
  unfold block_of. rewrite Hsp. unfold ext'.
  now destruct (all_dots stem).
Qed.

(** ** Artifact names against the extension filter *)

Lemma last_char_app (a b : string) :
  b <> EmptyString -> last_char (a +:+ b) = last_char b.
Proof.
  intros Hb. induction a as [|c a IH]; [reflexivity|].
  rewrite append_cons. cbn [last_char]. rewrite IH.
  destruct (a +:+ b) eqn:E; [|reflexivity].
  destruct a; [rewrite append_nil_l in E; congruence | discriminate].
Qed.

Lemma endswith_last_char (s suf : string) :
  suf <> EmptyString -> endswith s suf = true -> last_char s = last_char suf.
Proof.
  intros Hne H. apply endswith_spec in H as [pre ->]. now apply last_char_app.
Qed.

(** No recognized extension ends with the letter t. *)
Lemma matches_extension_last_char (name : string) :
  last_char name = Some "t"%char -> matches_extension name = false.
Proof.
  intros Hl. destruct (matches_extension name) eqn:E; [|reflexivity].
  unfold matches_extension in E. apply existsb_exists in E as (ext & Hin & He).
  cbn [extensions In] in Hin.
  repeat (destruct Hin as [<-|Hin];
          [apply endswith_last_char in He; [|discriminate];
           rewrite Hl in He; discriminate He|]).
  destruct Hin.
Qed.

(** A path with a separator splits at its last one. *)
Lemma split_last_sep (p : string) :
  has_char "/" p = true ->
  exists x b, p = x +:+ String "/" b /\ has_char "/" b = false.
Proof.
  induction p as [|c p IH]; intros H; [discriminate|].
  destruct (has_char "/" p) eqn:E.
  - destruct (IH eq_refl) as (x & b & -> & Hb). now exists (String c x), b.
  - cbn [has_char] in H. rewrite E, orb_false_r in H.
    apply Ascii.eqb_eq in H as ->. now exists EmptyString, p.
Qed.

Lemma last_char_basename (p : string) :
  last_char p = Some "t"%char -> last_char (basename p) = Some "t"%char.
Proof.
  intros Hl. destruct (has_char "/" p) eqn:E.
  - destruct (split_last_sep p E) as (x & b & -> & Hb).
    rewrite basename_after_sep by assumption.
    destruct b as [|c b].
    + rewrite last_char_app in Hl by discriminate. discriminate Hl.
    + change (String "/" (String c b))
        with (String "/" EmptyString +:+ String c b) in Hl.
      now rewrite <- append_assoc, last_char_app in Hl by discriminate.
  - now rewrite basename_plain.
Qed.

Lemma last_char_path_join (a b : string) :
  b <> EmptyString -> last_char (path_join a b) = last_char b.
Proof.
  intros Hb. unfold path_join.
  destruct (startswith b "/"); [reflexivity|].
  destruct (String.eqb a EmptyString || endswith a "/").
  - now apply last_char_app.
  - rewrite last_char_app; [now apply last_char_app|].
    destruct b; [congruence | discriminate].
Qed.

(** X9. The path and the file name of every per-folder artifact and of
    the master artifact end with the letter t, which no recognized
    extension does: the extension filter of the walk never selects a
    file the consolidator wrote. *)
Theorem X9_artifacts_never_match_the_filter (output_dir main_folder : string) :
  let cf := output_file_of output_dir main_folder in
  let master := master_file_path_of output_dir in
  matches_extension cf = false /\
  matches_extension (basename cf) = false /\
  matches_extension master = false /\
  matches_extension (basename master) = false.
Proof.
  intros cf master.
  assert (Hcf : last_char cf = Some "t"%char).
  { unfold cf, output_file_of. rewrite last_char_path_join.
    - now rewrite last_char_app by discriminate.
    - destruct main_folder; discriminate. }
  assert (Hm : last_char master = Some "t"%char).
  { unfold master, master_file_path_of. now rewrite last_char_path_join by discriminate. }
  repeat split; apply matches_extension_last_char;
    try assumption; now apply last_char_basename.
Qed.

(** ** The order of the blocks *)

Lemma concat_blocks_flat_map {A : Type} (g : A -> list file_record) (l : list A) :
  concat_all (map block_of (flat_map g l))
  = concat_all (map (fun x => concat_all (map block_of (g x))) l).
Proof.
  induction l as [|x l IH]; [reflexivity|].
  cbn [flat_map map]. rewrite map_app, concat_all_app, IH. reflexivity.
Qed.

(** X10. In the artifact of a directory the blocks of its own matching
    files come first, in listing order, whatever the position of the
    sub-directories in the listing; the blocks of each sub-directory
    follow, sub-directory after sub-directory in listing order, each
    under its joined path; and the included-file count is the number of
    own matching files plus the counts of the sub-directories. *)
Theorem X10_own_files_before_subdirectories
  (top : string) (es : list (string * node)) :
  let own := map (fun f => (top, fst f, snd f))
                 (List.filter (fun f => matches_extension (fst f)) (nondirs es)) in
  included_records top (Dir es)
  = own ++ flat_map (fun e => included_records (path_join top (fst e)) (snd e)) es /\
  ws_out (write_artifact top (Dir es))
  = artifact_header top
    +:+ concat_all (map block_of own)
    +:+ concat_all
          (map (fun e => concat_all
                           (map block_of
                              (included_records (path_join top (fst e)) (snd e))))
               es) /\
  included_files_count (write_artifact top (Dir es))
  = length own + list_sum (map (fun e => count_matching (snd e)) es).
Proof.
  intros own.
  pose proof (included_records_Dir top es) as Hrec.
  change (records_in top (nondirs es)) with own in Hrec.
  destruct (write_artifact_spec top (Dir es)) as (Ho & _ & _ & Hc).
  split; [exact Hrec|]. split.
  - now rewrite Ho, Hrec, map_app, concat_all_app, concat_blocks_flat_map.
  - rewrite Hc, Hrec, length_app. f_equal.
    clear. induction es as [|e es IH]; [reflexivity|].
    cbn [flat_map map]. rewrite length_app, IH, length_included_records.
    now rewrite list_sum_cons.
Qed.

(** ** Progress lines *)

Lemma write_file_console (rel : string) (ws : walk_state) (f : string * option string) :
  ws_console (write_file rel ws f)
  = ws_console ws ++ [progress_line (rel, fst f, snd f)].
Proof. unfold write_file. now destruct f as [name [content|]]. Qed.

Lemma fold_write_file_console (rel : string) (fs : list (string * option string))
  (ws : walk_state) :
  ws_console (fold_left (write_file rel) fs ws)
  = ws_console ws ++ map progress_line (map (fun f => (rel, fst f, snd f)) fs).
Proof.
  revert ws. induction fs as [|f fs IH]; intros ws.
  - cbn. now rewrite app_nil_r.
  - cbn [fold_left map]. rewrite IH, write_file_console, <- app_assoc. reflexivity.
Qed.

Lemma visit_directory_console (ws : walk_state) (e : walk_entry) :
  ws_console (visit_directory ws e)
  = ws_console ws ++ map progress_line (entry_records e).
Proof.
  destruct e as [[root dirs] fs]. unfold visit_directory, entry_records.
  set (inc := List.filter _ fs).
  set (ws1 := Build_walk_state _ _ _ _ _).
  pose proof (fold_write_file_console root inc ws1) as H.
  destruct inc as [|f inc'] eqn:E.
  - cbn. now rewrite app_nil_r.
  - exact H.
Qed.

Lemma fold_visit_directory_console (es : list walk_entry) (ws : walk_state) :
  ws_console (fold_left visit_directory es ws)
  = ws_console ws ++ map progress_line (flat_map entry_records es).
Proof.
  revert ws. induction es as [|e es IH]; intros ws.
  - cbn. now rewrite app_nil_r.
  - cbn [fold_left flat_map]. rewrite IH, visit_directory_console, map_app, <- app_assoc.
    reflexivity.
Qed.

(** X11. The iteration of a processed folder prints exactly one progress
    line per included file, in the order of the blocks: a [Processed]
    line with the file's line and token counts when it decodes, a
    [Skipped] line when it does not; then one line with the
    included-file count and the artifact path. *)
Theorem X11_one_progress_line_per_included_file
  (src_dir output_dir : string) (src : list (string * node)) (st : run_state)
  (main_folder : string) (es : list (string * node)) :
  lookup_entry main_folder src = Some (Dir es) ->
  let records := included_records main_folder (Dir es) in
  console (process_folder src_dir output_dir src st main_folder)
  = console st
    ++ map progress_line records
    ++ [LF +:+ "Consolidated " +:+ str_of_nat (length records)
        +:+ " files from '" +:+ main_folder +:+ "' folder: "
        +:+ output_file_of output_dir main_folder].
Proof.
  intros Hdir records. unfold process_folder. rewrite Hdir. cbn [console].
  destruct (write_artifact_spec main_folder (Dir es)) as (_ & _ & _ & Hc).
  rewrite Hc. fold records. rewrite <- app_assoc. do 2 f_equal.
  unfold write_artifact. rewrite fold_visit_directory_console. reflexivity.
Qed.

(** ** Totals under reordering *)

Lemma list_sum_permutation (l l' : list nat) :
  Permutation l l' -> list_sum l = list_sum l'.
Proof.
  induction 1 as [|x l l' _ IH|x y l|l l' l'' _ IH1 _ IH2].
  - reflexivity.
  - rewrite !list_sum_cons. lia.
  - rewrite !list_sum_cons. lia.
  - congruence.
Qed.

Lemma processed_dirs_app (src : list (string * node)) (l1 l2 : list string) :
  processed_dirs src (l1 ++ l2) = processed_dirs src l1 ++ processed_dirs src l2.
Proof. unfold processed_dirs. apply flat_map_app. Qed.

Lemma run_totals (src_dir output_dir : string) (src : list (string * node))
  (outdir : option (gmap string string)) (l : list string) :
  let r := consolidate_nextjs_files src_dir output_dir (Some l) src outdir in
  total_lines_of_code r
  = list_sum (map (fun fd => tree_lines (snd fd)) (processed_dirs src l)) /\
  total_tokens r
  = list_sum (map (fun fd => tree_tokens (snd fd)) (processed_dirs src l)).
Proof.
  cbn zeta. unfold consolidate_nextjs_files. cbn [default from_option id].
  cbn [report_summary compose_master total_lines_of_code total_tokens].
  destruct (totals_of_run src_dir output_dir src l (initial_state output_dir outdir))
    as [Hl Ht].
  now rewrite Hl, Ht.
Qed.

(** X12. The aggregate totals do not depend on the order of the
    configured folders, and the totals of a configuration that is the
    concatenation of two are the sums of the totals of the two. *)
Theorem X12_totals_order_independent_and_additive
  (src_dir output_dir : string) (src : list (string * node))
  (outdir : option (gmap string string)) (l l' l1 l2 : list string) :
  let run := fun folders =>
    consolidate_nextjs_files src_dir output_dir (Some folders) src outdir in
  (Permutation l l' ->
   total_lines_of_code (run l) = total_lines_of_code (run l') /\
   total_tokens (run l) = total_tokens (run l')) /\
  total_lines_of_code (run (l1 ++ l2))
  = total_lines_of_code (run l1) + total_lines_of_code (run l2) /\
  total_tokens (run (l1 ++ l2)) = total_tokens (run l1) + total_tokens (run l2).
Proof.
  cbn zeta. split.
  - intros Hp.
    destruct (run_totals src_dir output_dir src outdir l) as [-> ->].
    destruct (run_totals src_dir output_dir src outdir l') as [-> ->].
    assert (Hpd : Permutation (processed_dirs src l) (processed_dirs src l'))
      by (unfold processed_dirs; now apply Permutation_flat_map).
    split; apply list_sum_permutation; now apply Permutation_map.
  - destruct (run_totals src_dir output_dir src outdir (l1 ++ l2)) as [-> ->].
    destruct (run_totals src_dir output_dir src outdir l1) as [-> ->].
    destruct (run_totals src_dir output_dir src outdir l2) as [-> ->].
    rewrite processed_dirs_app, !map_app, !list_sum_app. now split.
Qed.

End Consolidator.

(** ** Instances on the sample tree *)


Example sample_count : count_matching (Dir sample_lib_entries) = 3.
Proof. reflexivity. Qed.

Lemma C8_witness :
  lower ".TSX" = lower ".tsx" /\
  In (lower ".TSX", "tsx") extension_map /\
  (forall tag, ~ In (lower ".py", tag) extension_map) /\
  map_extension_to_language ".TSX" = map_extension_to_language ".tsx" /\
  map_extension_to_language ".TSX" = "tsx" /\
  map_extension_to_language ".py" = "plaintext".
Proof.
  assert (H1 : lower ".TSX" = lower ".tsx") by reflexivity.
  assert (H2 : In (lower ".TSX", "tsx") extension_map)
    by (cbn; do 3 right; left; reflexivity).
  assert (H3 : forall tag, ~ In (lower ".py", tag) extension_map)
    by (intros tag H; cbn in H; repeat destruct H as [H|H]; discriminate H || exact H).
  exact (conj H1 (conj H2 (conj H3
    (conj (proj1 (C8_mapper_case_insensitive_with_default ".TSX" ".tsx") H1)
    (conj (proj1 (proj2 (C8_mapper_case_insensitive_with_default ".TSX" ".tsx")) "tsx" H2)
          (proj2 (proj2 (C8_mapper_case_insensitive_with_default ".py" ".py")) H3)))))).
Defined.





(** C5. For the single configured folder [api_consolidated.txt] the
    manifest lists its artifact and the statistics are the totals, but
    the two markers name the folder [api]: removing every occurrence of
    the artifact suffix from the base name removes part of the folder
    name as well. *)
Lemma C5_markers_misname_suffix_named_folder :
  let r := consolidate_nextjs_files byte_tokenizer "src" "out"
             (Some ["api_consolidated.txt"]) suffix_named_src None in
  let cf := "out/api_consolidated.txt_consolidated.txt" in
  consolidated_files r = [cf] /\
  folder_name_of cf = "api" /\
  files r !! "out/master_consolidated.txt"
  = Some ((manifest_block [cf] +:+ statistics_block 1 1)
          +:+ start_marker "api"
          +:+ final_artifact byte_tokenizer "api_consolidated.txt"
                (Dir [ ("a.js", File (Some "x")) ])
          +:+ end_marker "api").
Proof. vm_compute. repeat split; reflexivity. Qed.

(** C6. For a folder [app] whose file [notes.md] holds the text of the
    first header line, the rewrite pass changes the file's block too: the
    quoted line gets the count injected, so the artifact the run leaves
    differs from the written one beyond its first line. *)
Lemma C6_rewrite_alters_quoted_header :
  let dir := Dir [ ("notes.md", File (Some (header_line "app"))) ] in
  let r := consolidate_nextjs_files byte_tokenizer "src" "out" (Some ["app"])
             quoting_src None in
  ws_out (write_artifact byte_tokenizer "app" dir)
  = (header_line "app" +:+ LF +:+ subheader_line "app" +:+ LF +:+ LF)
    +:+ block_of ("app", "notes.md", Some (header_line "app")) /\
  files r !! "out/app_consolidated.txt"
  = Some ((counted_header_line 1 "app" +:+ LF +:+ subheader_line "app" +:+ LF +:+ LF)
          +:+ block_of ("app", "notes.md", Some (counted_header_line 1 "app"))) /\
  block_of ("app", "notes.md", Some (counted_header_line 1 "app"))
  <> block_of ("app", "notes.md", Some (header_line "app")).
Proof. vm_compute. repeat split; try reflexivity. discriminate. Qed.

Example splitext_ts : splitext "a.test.ts" = ("a.test", ".ts").
Proof. reflexivity. Qed.
Example splitext_hidden : splitext ".json" = (".json", EmptyString).
Proof. reflexivity. Qed.
Example splitlines_ex :
  splitlines ("a" +:+ LF +:+ LF +:+ "b" +:+ String "013" LF +:+ "c") =
  ["a"; EmptyString; "b"; "c"].
Proof. reflexivity. Qed.
Example replace_ex : str_replace "ab" "X" "cababbab" = "cXXbX".
Proof. reflexivity. Qed.
Example basename_ex : basename "out/app_consolidated.txt" = "app_consolidated.txt".
Proof. reflexivity. Qed.
Example map_ex : map_extension_to_language ".TSX" = "tsx".
Proof. reflexivity. Qed.

Example frame_ex :
  occurs (header_line "lib")
    (ws_out (write_artifact byte_tokenizer "lib" (Dir sample_lib_entries))) = true /\
  occurs (header_line "lib")
    (concat_all (map block_of (included_records "lib" (Dir sample_lib_entries)))) = false.
Proof. split; reflexivity. Qed.

(** ** Instances of the further properties *)

Lemma X1_witness :
  has_char "/" "lib" = false /\
  occurs artifact_suffix "lib" = false /\
  (let cf := output_file_of "out" "lib" in
   basename cf = "lib" +:+ artifact_suffix /\
   folder_name_of cf = "lib" /\
   manifest_line cf = "// - " +:+ "lib" +:+ artifact_suffix +:+ LF /\
   start_marker (folder_name_of cf)
   = "// ===== Start of " +:+ "lib" +:+ " folder =====" +:+ LF +:+ LF /\
   end_marker (folder_name_of cf)
   = LF +:+ "// ===== End of " +:+ "lib" +:+ " folder =====" +:+ LF +:+ LF).
Proof.
  exact (conj eq_refl (conj eq_refl
           (X1_folder_name_recovered "out" "lib" eq_refl eq_refl))).
Defined.





Lemma X6_witness :
  "out/notes.txt" <> master_file_path_of "out" /\
  (let r := consolidate_nextjs_files byte_tokenizer "src" "out"
              (Some ["lib"; "empty"]) sample_src
              (Some {[ "out/notes.txt" := "kept" ]}) in
   ~ In "out/notes.txt" (consolidated_files r) /\
   files r !! "out/notes.txt"
   = default ∅ (Some ({[ "out/notes.txt" := "kept" ]} : gmap string string))
     !! "out/notes.txt").
Proof.
  assert (H1 : "out/notes.txt" <> master_file_path_of "out") by discriminate.
  assert (H2 : ~ In "out/notes.txt"
                 (consolidated_files
                    (consolidate_nextjs_files byte_tokenizer "src" "out"
                       (Some ["lib"; "empty"]) sample_src
                       (Some {[ "out/notes.txt" := "kept" ]})))).
  { vm_compute. intros [E|[E|[]]]; discriminate E. }
  exact (conj H1 (conj H2
    (X6_other_output_files_untouched byte_tokenizer "src" "out" sample_src
       (Some {[ "out/notes.txt" := "kept" ]}) ["lib"; "empty"] "out/notes.txt"
       H1 H2))).
Defined.



Lemma X8_witness :
  In ".tsx" extensions /\
  has_char "/" "page" = false /\
  (let file_name := "page" +:+ ".tsx" in
   let ext' := if all_dots "page" then EmptyString else ".tsx" in
   matches_extension file_name = true /\
   snd (splitext file_name) = ext' /\
   In (".tsx", map_extension_to_language ".tsx") extension_map /\
   map_extension_to_language ".tsx" <> "plaintext" /\
   block_of ("app", file_name, Some "export {}")
   = ("// Directory: " +:+ "app" +:+ ", File: " +:+ file_name +:+ LF)
     +:+ ("// File Type: " +:+ drop_first ext' +:+ LF)
     +:+ (FENCE +:+ (if all_dots "page" then "plaintext"
                     else map_extension_to_language ".tsx") +:+ LF)
     +:+ "export {}" +:+ (LF +:+ FENCE +:+ LF +:+ LF)).
Proof.
  assert (H1 : In ".tsx" extensions) by (cbn; tauto).
  exact (conj H1 (conj eq_refl
    (X8_block_file_type_and_language "page" ".tsx" "app" "export {}" H1 eq_refl))).
Defined.

Lemma X11_witness :
  lookup_entry "lib" sample_src = Some (Dir sample_lib_entries) /\
  (let st := initial_state "out" None in
   let records := included_records "lib" (Dir sample_lib_entries) in
   console (process_folder byte_tokenizer "src" "out" sample_src st "lib")
   = console st
     ++ map (progress_line byte_tokenizer) records
     ++ [LF +:+ "Consolidated " +:+ str_of_nat (length records)
         +:+ " files from '" +:+ "lib" +:+ "' folder: "
         +:+ output_file_of "out" "lib"]).
Proof.
  exact (conj eq_refl
           (X11_one_progress_line_per_included_file byte_tokenizer "src" "out"
              sample_src (initial_state "out" None) "lib" sample_lib_entries eq_refl)).
Defined.

Lemma X12_witness :
  Permutation ["lib"; "empty"] ["empty"; "lib"] /\
  (let run := fun folders =>
     consolidate_nextjs_files byte_tokenizer "src" "out" (Some folders)
       sample_src None in
   total_lines_of_code (run ["lib"; "empty"])
   = total_lines_of_code (run ["empty"; "lib"]) /\
   total_tokens (run ["lib"; "empty"]) = total_tokens (run ["empty"; "lib"])).
Proof.
  assert (H : Permutation ["lib"; "empty"] ["empty"; "lib"]) by apply perm_swap.
  exact (conj H
    (proj1 (X12_totals_order_independent_and_additive byte_tokenizer "src" "out"
              sample_src None ["lib"; "empty"] ["empty"; "lib"] [] []) H)).
Defined.
